(** * NI-edu, week 1: [python_for_mri.ipynb]

    A shallow embedding of the computations of the notebook
    [fMRI-introduction/week_1/python_for_mri.ipynb]: the affine product
    [xyz1 = A @ np.array([69, 119, 109, 1])] (cell 57) and the basic
    indexing expressions on the volume arrays ([img_data[119, :, :]],
    cell 27).

    Numbers.  The notebook computes with numpy [float64] values.  Array
    entries are real numbers ([R]) wherever a statement is about exact
    arithmetic; module [F64] has the same product over binary64 numbers,
    for what rounding changes.

    Errors.  Python exceptions are values of [error]; a computation that can
    raise returns a [result]. *)

From Stdlib Require Import String Reals Lra Lia ZArith Bool List.
From Stdlib Require Import PrimFloat.
Import ListNotations.

Open Scope R_scope.

(** ** Exceptions and results *)

Inductive error : Type :=
| ShapeMismatch        (* numpy: ValueError, mismatch in a core dimension *)
| ValueError           (* Python: any other ValueError (slice step zero) *)
| IndexError           (* numpy: index out of bounds, too many indices *)
| NameError            (* Python: name is not defined *)
| SingularMatrix       (* the matrix cannot be inverted *)
| DegenerateTransform. (* the homogeneous term is zero *)

Inductive result (T : Type) : Type :=
| Ok (x : T)
| Err (e : error).

Arguments Ok {T} x.
Arguments Err {T} e.

Definition bind {T U : Type} (r : result T) (f : T -> result U) : result U :=
  match r with
  | Ok x => f x
  | Err e => Err e
  end.

Definition fmap {T U : Type} (f : T -> U) (r : result T) : result U :=
  bind r (fun x => Ok (f x)).

(** ** numpy: arrays, the [@] operator, basic indexing *)

Module Np.

(** A 1-D array is the list of its entries; a 2-D array carries its shape
    [(nrows, ncols)] and the list of its rows. *)
Record ndarray2 : Type := mk2 {
  nrows : nat;
  ncols : nat;
  rows : list (list R)
}.

(** What every numpy 2-D array satisfies: the data fills the shape. *)
Definition wf2 (A : ndarray2) : Prop :=
  length (rows A) = nrows A /\
  Forall (fun r => length r = ncols A) (rows A).

(** [np.array] on a nested list of numbers. *)
Definition array (l : list (list R)) : ndarray2 :=
  mk2 (length l) (length (hd [] l)) l.

(** Sum of products of two rows. *)
Fixpoint dot (u v : list R) : R :=
  match u, v with
  | a :: u', b :: v' => a * b + dot u' v'
  | _, _ => 0
  end.

(** [A @ v] for a 2-D [A] of shape [(n, m)] and a 1-D [v] of size [p]:
    numpy raises a [ValueError] unless [m = p]; the result is the 1-D array
    of size [n] of the rows' products with [v]. *)
Definition matmul (A : ndarray2) (v : list R) : result (list R) :=
  if Nat.eqb (ncols A) (length v)
  then Ok (map (fun r => dot r v) (rows A))
  else Err ShapeMismatch.

(** The columns of a 2-D array, first to last. *)
Definition columns (B : ndarray2) : list (list R) :=
  map (fun j => map (fun r => nth j r 0) (rows B)) (seq 0 (ncols B)).

(** [A @ B] for two 2-D arrays of shapes [(n, m)] and [(p, q)]: a
    [ValueError] unless [m = p], else the [(n, q)] array of the products of
    the rows of [A] with the columns of [B]. *)
Definition matmul2 (A B : ndarray2) : result ndarray2 :=
  if Nat.eqb (ncols A) (nrows B)
  then Ok (mk2 (nrows A) (ncols B)
               (map (fun r => map (fun c => dot r c) (columns B)) (rows A)))
  else Err ShapeMismatch.

(** [np.eye(n)]. *)
Definition eye (n : nat) : ndarray2 :=
  mk2 n n (map (fun i => map (fun j => if Nat.eqb i j then 1 else 0) (seq 0 n))
               (seq 0 n)).

(** [A / d] for a 2-D array and a scalar. *)
Definition div2 (A : ndarray2) (d : R) : ndarray2 :=
  mk2 (nrows A) (ncols A) (map (map (fun c => c / d)) (rows A)).

(** [v[:n]] on a 1-D array. *)
Definition upto (n : nat) (v : list R) : list R := firstn n v.

(** Entrywise difference of two 1-D arrays of one size. *)
Fixpoint vsub (u v : list R) : list R :=
  match u, v with
  | a :: u', b :: v' => (a - b) :: vsub u' v'
  | _, _ => []
  end.

(** The volumes ([get_fdata()]) have millions of entries: an N-D array is its
    shape and the entry at each index tuple.  Entries outside the shape do
    not exist in numpy; [item] is only read inside it. *)
Record ndarray (T : Type) : Type := mk {
  shape : list Z;
  item : list Z -> T
}.

Arguments mk {T} shape item.
Arguments shape {T} n.
Arguments item {T} n idx.

(** One entry of an index tuple: an integer, or [start:stop:step] with any
    of the three left out. *)
Inductive index : Type :=
| Int (i : Z)
| Slice (start stop step : option Z).

(** [:] *)
Definition full : index := Slice None None None.

Open Scope Z_scope.

(** [slice(start, stop, step).indices(len)]: defaults and clamping of the
    bounds, as Python defines them. *)
Definition slice_indices (start stop step : option Z) (len : Z)
  : result (Z * Z * Z) :=
  let st := match step with None => 1 | Some s => s end in
  if st =? 0 then Err ValueError
  else
    let lower := if st <? 0 then -1 else 0 in
    let upper := if st <? 0 then len - 1 else len in
    let clamp := fun v =>
      if v <? 0 then Z.max (v + len) lower else Z.min v upper in
    let a := match start with
             | None => if st <? 0 then upper else lower
             | Some v => clamp v
             end in
    let b := match stop with
             | None => if st <? 0 then lower else upper
             | Some v => clamp v
             end in
    Ok (a, b, st).

(** The number of indices [start, start+step, ...] before [stop]. *)
Definition slice_length (a b st : Z) : Z :=
  if st <? 0
  then (if b <? a then (a - b - 1) / (- st) + 1 else 0)
  else (if a <? b then (b - a - 1) / st + 1 else 0).

(** Basic indexing, axis by axis: the shape of the result and, for an index
    tuple of the result, the index tuple of the indexed array.  An integer
    selects one position and removes the axis (negative integers count from
    the end, an integer outside [-n, n) is an [IndexError]); a slice keeps
    the axis with the slice's length; axes without an index are kept whole;
    more indices than axes are an [IndexError]. *)
Fixpoint getitem_aux (sh : list Z) (ix : list index) {struct sh}
  : result (list Z * (list Z -> list Z)) :=
  match sh with
  | [] =>
      match ix with
      | [] => Ok ([], fun _ => [])
      | _ :: _ => Err IndexError
      end
  | n :: sh' =>
      match ix with
      | [] =>
          bind (getitem_aux sh' []) (fun sf =>
            Ok (n :: fst sf,
                fun idx => match idx with
                           | t :: r => t :: snd sf r
                           | [] => []
                           end))
      | Int i :: ix' =>
          if (- n <=? i) && (i <? n)
          then bind (getitem_aux sh' ix') (fun sf =>
                 Ok (fst sf,
                     fun idx => (if i <? 0 then i + n else i) :: snd sf idx))
          else Err IndexError
      | Slice a b c :: ix' =>
          bind (slice_indices a b c n) (fun abc =>
            let '(start, stop, step) := abc in
            bind (getitem_aux sh' ix') (fun sf =>
              Ok (slice_length start stop step :: fst sf,
                  fun idx => match idx with
                             | t :: r => (start + t * step) :: snd sf r
                             | [] => []
                             end)))
      end
  end.

(** [a[ix]] for a tuple [ix] of integers and slices.  numpy counts the
    indices before it looks at any of them: more indices than axes are an
    [IndexError] whatever the indices are. *)
Definition getitem {T : Type} (a : ndarray T) (ix : list index)
  : result (ndarray T) :=
  if Nat.ltb (length (shape a)) (length ix) then Err IndexError
  else
    bind (getitem_aux (shape a) ix) (fun sf =>
      Ok (mk (fst sf) (fun idx => item a (snd sf idx)))).

Close Scope Z_scope.

End Np.

Import Np.

(** ** Determinant and inverse *)

Module LinAlg.

Fixpoint drop_nth {T : Type} (n : nat) (l : list T) : list T :=
  match l with
  | [] => []
  | h :: t => match n with O => t | S n' => h :: drop_nth n' t end
  end.

(** A matrix without its row [i] and its column [j]. *)
Definition minor (i j : nat) (M : list (list R)) : list (list R) :=
  map (drop_nth j) (drop_nth i M).

Definition sign (n : nat) : R := if Nat.even n then 1 else -1.

Definition sum (l : list R) : R := fold_right Rplus 0 l.

(** The determinant of an [n] by [n] matrix, expanded along its first row. *)
Fixpoint det (n : nat) (M : list (list R)) : R :=
  match n with
  | O => 1
  | S n' =>
      sum (map (fun j => sign j * nth j (hd [] M) 0 * det n' (minor 0 j M))
               (seq 0 (S n')))
  end.

(** The transposed matrix of cofactors. *)
Definition adjugate (n : nat) (M : list (list R)) : list (list R) :=
  map (fun i => map (fun j => sign (i + j) * det (pred n) (minor j i M))
                    (seq 0 n))
      (seq 0 n).

(** Modelled from the spec: the notebook inverts no matrix; section 4.1
    asks for "the matrix inverse of affine".  It exists for a square matrix
    of nonzero determinant, and is the adjugate over the determinant; a
    matrix without an inverse is a [SingularMatrix]. *)
Definition inv (A : ndarray2) : result ndarray2 :=
  if Nat.eqb (nrows A) (ncols A)
  then
    if Req_dec_T (det (nrows A) (rows A)) 0 then Err SingularMatrix
    else Ok (div2 (mk2 (nrows A) (nrows A) (adjugate (nrows A) (rows A)))
                  (det (nrows A) (rows A)))
  else Err ShapeMismatch.

(** The leading 3x3 submatrix. *)
Definition leading3 (A : ndarray2) : list (list R) :=
  map (firstn 3) (firstn 3 (rows A)).

End LinAlg.

Import LinAlg.

(** ** Python: names and objects *)

Module Py.

(** The objects the affine cell touches. *)
Inductive object : Type :=
| Num (r : R)
| Arr1 (v : list R)
| Arr2 (A : ndarray2).

(** The interpreter's state: the objects by address, and the notebook's
    global names bound to addresses.  Two names can be bound to one
    address. *)
Record state : Type := mkstate {
  heap : list object;
  names : string -> option nat
}.

Definition deref (st : state) (l : nat) : option object :=
  nth_error (heap st) l.

(** Reading a global name. *)
Definition lookup (st : state) (x : string) : result object :=
  match names st x with
  | Some l =>
      match deref st l with
      | Some o => Ok o
      | None => Err NameError
      end
  | None => Err NameError
  end.

(** A new object gets the next address; no object moves or changes. *)
Definition alloc (o : object) (st : state) : nat * state :=
  (length (heap st), mkstate (heap st ++ [o]) (names st)).

(** [x = <object at l>]: only the name [x] is bound anew. *)
Definition assign (x : string) (l : nat) (st : state) : state :=
  mkstate (heap st)
          (fun y => if String.eqb x y then Some l else names st y).

End Py.

Import Py.

(** ** The notebook's cells *)

(** Cell 27, [mid_slice_x = img_data[119, :, :]]. *)
Definition mid_slice_x {T : Type} (img_data : ndarray T)
  : result (ndarray T) :=
  getitem img_data [Int 119; full; full].

(** Cell 57, [xyz1 = A @ np.array([69, 119, 109, 1])], with the voxel
    coordinate as a parameter: the coordinate scalars are followed by a
    single 1, and the affine is multiplied with that vector.  Nothing is
    divided. *)
Definition xyz1 (A : ndarray2) (ijk : list R) : result (list R) :=
  matmul A (ijk ++ [1]).

(** The world coordinate of cells 56 to 61: the product without its last
    entry ("make sure to remove the extra 1", [len(xyz_middle) != 3] is
    rejected). *)
Definition voxel_to_physical (A : ndarray2) (ijk : list R) : result (list R) :=
  fmap (upto 3) (xyz1 A ijk).

(** [x @ y] on objects: 2-D with 1-D as above, 1-D with 1-D the scalar
    product of two arrays of one size; a scalar operand is a [ValueError]. *)
Definition matmul_obj (x y : object) : result object :=
  match x, y with
  | Arr2 A, Arr1 v => fmap Arr1 (matmul A v)
  | Arr1 u, Arr1 v =>
      if Nat.eqb (length u) (length v) then Ok (Num (dot u v))
      else Err ShapeMismatch
  | Arr2 A, Arr2 B => fmap Arr2 (matmul2 A B)
  | Arr1 u, Arr2 B => fmap Arr1 (matmul (mk2 (ncols B) (nrows B) (columns B)) u)
  | _, _ => Err ShapeMismatch
  end.

(** Cell 57 as a statement: the name [A] is read, [np.array([i, j, k, 1])]
    and the product are new objects, and the name [xyz1] is bound to the
    product. *)
Definition cell_57 (i j k : R) (st : state) : result state :=
  bind (lookup st "A") (fun a =>
    let (lv, st1) := alloc (Arr1 ([i; j; k] ++ [1])) st in
    bind (matmul_obj a (Arr1 ([i; j; k] ++ [1]))) (fun p =>
      let (lp, st2) := alloc p st1 in
      Ok (assign "xyz1" lp st2))).

(** The affine of the concrete scenario. *)
Definition affine_ras : ndarray2 :=
  array [[-1; 0; 0; 120]; [0; 1; 0; -120]; [0; 0; 1; -110]; [0; 0; 0; 1]].

(** An affine whose last row is [[0, 0, 0, 2]]. *)
Definition affine_w2 : ndarray2 :=
  array [[1; 0; 0; 0]; [0; 1; 0; 0]; [0; 0; 1; 0]; [0; 0; 0; 2]].

(** A 3x4 array: not 4x4, yet its product with a 4-vector is defined. *)
Definition affine_3x4 : ndarray2 :=
  array [[1; 0; 0; 0]; [0; 1; 0; 0]; [0; 0; 1; 0]].

(** An affine whose leading block has two identical rows. *)
Definition affine_twin : ndarray2 :=
  array [[1; 0; 0; 0]; [1; 0; 0; 0]; [0; 0; 1; 0]; [0; 0; 0; 1]].

(** An affine with an invertible leading block and a zero last row. *)
Definition affine_flat : ndarray2 :=
  array [[1; 0; 0; 0]; [0; 1; 0; 0]; [0; 0; 1; 0]; [0; 0; 0; 0]].

(** An invertible affine with a shear in the last row. *)
Definition affine_proj : ndarray2 :=
  array [[2; 0; 0; 1]; [0; 1; 0; 3]; [0; 0; 4; -2]; [1; 0; 0; 1]].

(** A volume of a given shape whose entry at an index tuple is the tuple's
    weighted sum. *)
Definition ramp (sh : list Z) : ndarray Z :=
  mk sh (fun idx => fold_right (fun t acc => t + 1000 * acc)%Z 0%Z idx).

(** ** The mapper as the specification words it *)

(** The row of a 2-D array at an index. *)
Definition row (n : nat) (A : ndarray2) : list R := nth n (rows A) [].

Definition is_4x4 (A : ndarray2) : Prop :=
  wf2 A /\ nrows A = 4%nat /\ ncols A = 4%nat.

Definition is_4x4b (A : ndarray2) : bool :=
  Nat.eqb (nrows A) 4 && Nat.eqb (ncols A) 4.

(** Dividing the first three entries of [(x', y', z', w)] by [w]. *)
Definition homogenize (v : list R) : result (list R) :=
  match v with
  | [x'; y'; z'; w] =>
      if Req_dec_T w 0 then Err DegenerateTransform
      else Ok [x' / w; y' / w; z' / w]
  | _ => Err ShapeMismatch
  end.

(** The specification's [voxel_to_physical]: a shape check (the affine is
    4x4, three scalars are supplied), the vector [(i, j, k, 1)], the product
    [(x', y', z', w)], and the division of the first three entries by [w],
    a [DegenerateTransform] when [w = 0]. *)
Definition voxel_to_physical_spec (A : ndarray2) (ijk : list R)
  : result (list R) :=
  if is_4x4b A && Nat.eqb (length ijk) 3
  then bind (matmul A (ijk ++ [1])) homogenize
  else Err ShapeMismatch.

(** Modelled from the spec: [physical_to_voxel] is not in the notebook (no
    cell inverts the affine).  Section 4.1: "compute the matrix inverse of
    affine once (fails with SingularMatrix if the 3x3 leading submatrix is
    not invertible, i.e., zero determinant) and apply the same homogeneous
    multiply-and-homogenize procedure".  [SingularMatrix] is the answer for
    a leading submatrix of determinant zero, and for nothing else.  An
    affine with a regular leading submatrix and no matrix inverse has a last
    row other than [[0, 0, 0, 1]]; section 9 asks for an explicit error
    there without naming it, and of the two errors of section 7 it gets
    [DegenerateTransform]. *)
Definition physical_to_voxel (A : ndarray2) (xyz : list R)
  : result (list R) :=
  if is_4x4b A && Nat.eqb (length xyz) 3
  then
    if Req_dec_T (det 3 (leading3 A)) 0 then Err SingularMatrix
    else
      match inv A with
      | Ok B => voxel_to_physical_spec B xyz
      | Err _ => Err DegenerateTransform
      end
  else Err ShapeMismatch.

(** Modelled from the spec: the cell that computes [f_img_data_odd] is left
    to the student ([raise NotImplementedError()]) and its test,
    [niedu.tests.nii.week_1.test_extract_voxel_timeseries], is not in the
    notebook.  Section 8 and the exercise: all odd indices (1, 3, 5, ...)
    along axis 3, which in numpy is [f_img_data[:, :, :, 1::2]]. *)
Definition f_img_data_odd {T : Type} (f_img_data : ndarray T)
  : result (ndarray T) :=
  getitem f_img_data [full; full; full; Slice (Some 1%Z) None (Some 2%Z)].

(** ** Further cells of the notebook *)

(** [a.T]: the axes in reverse order. *)
Definition transpose {T : Type} (a : ndarray T) : ndarray T :=
  mk (rev (shape a)) (fun idx => item a (rev idx)).

(** An index tuple inside a shape: one index per axis, each in [0, n). *)
Definition in_bounds (sh idx : list Z) : Prop :=
  Forall2 (fun n t => (0 <= t < n)%Z) sh idx.

(** What every numpy shape satisfies. *)
Definition nonneg (sh : list Z) : Prop := Forall (fun n => (0 <= n)%Z) sh.

(** The integers of an index tuple. *)
Fixpoint count_int (ix : list index) : nat :=
  match ix with
  | [] => 0
  | Int _ :: ix' => S (count_int ix')
  | Slice _ _ _ :: ix' => count_int ix'
  end.

(** A [for] loop that collects what its body yields: the first exception
    ends it. *)
Fixpoint mapM {X Y : Type} (g : X -> result Y) (l : list X)
  : result (list Y) :=
  match l with
  | [] => Ok []
  | x :: l' => bind (g x) (fun y => bind (mapM g l') (fun ys => Ok (y :: ys)))
  end.

(** Cell 25, [mid_vox = img_data[118:121, 118:121, 108:111]]. *)
Definition mid_vox {T : Type} (img_data : ndarray T) : result (ndarray T) :=
  getitem img_data
    [Slice (Some 118%Z) (Some 121%Z) None;
     Slice (Some 118%Z) (Some 121%Z) None;
     Slice (Some 108%Z) (Some 111%Z) None].

(** Cell 29, [mid_slice_x.T], the image handed to [imshow]. *)
Definition mid_slice_x_T {T : Type} (img_data : ndarray T)
  : result (ndarray T) :=
  fmap transpose (mid_slice_x img_data).

(** Cell 37, [f_img_data[38:41, 38:41, 20:23, 0]]. *)
Definition cell_37 {T : Type} (f_img_data : ndarray T) : result (ndarray T) :=
  getitem f_img_data
    [Slice (Some 38%Z) (Some 41%Z) None;
     Slice (Some 38%Z) (Some 41%Z) None;
     Slice (Some 20%Z) (Some 23%Z) None;
     Int 0].

(** Cell 39, [mid_slice_x_fmri = f_img_data[39, :, :, 0]]. *)
Definition mid_slice_x_fmri {T : Type} (f_img_data : ndarray T)
  : result (ndarray T) :=
  getitem f_img_data [Int 39; full; full; Int 0].

(** Cell 41, [mid_vox_ts = f_img_data[39, 39, 21, :]]. *)
Definition mid_vox_ts {T : Type} (f_img_data : ndarray T)
  : result (ndarray T) :=
  getitem f_img_data [Int 39; Int 39; Int 21; full].

(** Cell 43: [plt.subplots(ncols=5, nrows=4)] gives 20 axes, and the loop
    [for t, ax in enumerate(axes.flatten())] shows
    [f_img_data[39, :, :, t].T] on each; the images shown, in order. *)
Definition cell_43 {T : Type} (f_img_data : ndarray T)
  : result (list (ndarray T)) :=
  mapM (fun t => fmap transpose
                   (getitem f_img_data [Int 39; full; full; Int (Z.of_nat t)]))
       (seq 0 (5 * 4)).

(** Cell 61, [if len(xyz_middle) != 3: raise ValueError(...)]. *)
Definition cell_61_guard (xyz_middle : list R) : result unit :=
  if negb (Nat.eqb (length xyz_middle) 3) then Err ValueError else Ok tt.

(** A column of a 2-D array, as a 1-D array. *)
Definition column (j : nat) (A : ndarray2) : list R :=
  map (fun r => nth j r 0) (rows A).

(** ** The affine product in binary64 *)

Module F64.

Open Scope float_scope.

(** A 2-D [float64] array. *)
Record ndarray2 : Type := mk2 {
  nrows : nat;
  ncols : nat;
  rows : list (list float)
}.

(** [np.array] on a nested list of numbers. *)
Definition array (l : list (list float)) : ndarray2 :=
  mk2 (length l) (length (hd [] l)) l.

(** The sum of products of two rows, each product and each sum rounded to
    binary64: the products added one after the other, first to last. *)
Fixpoint dot_from (acc : float) (u v : list float) : float :=
  match u, v with
  | a :: u', b :: v' => dot_from (acc + a * b) u' v'
  | _, _ => acc
  end.

Definition dot (u v : list float) : float := dot_from 0 u v.

(** The same sum taken last to first; which order numpy's [@] takes is up
    to the linear-algebra library under it. *)
Fixpoint dot_rev (u v : list float) : float :=
  match u, v with
  | a :: u', b :: v' => a * b + dot_rev u' v'
  | _, _ => 0
  end.

(** [A @ v], as [Np.matmul], with the sum of products given. *)
Definition matmul_with (sum_of_products : list float -> list float -> float)
           (A : ndarray2) (v : list float) : result (list float) :=
  if Nat.eqb (ncols A) (length v)
  then Ok (List.map (fun r => sum_of_products r v) (rows A))
  else Err ShapeMismatch.

Definition matmul : ndarray2 -> list float -> result (list float) :=
  matmul_with dot.

(** Cell 57 and the world coordinate, in binary64. *)
Definition xyz1 (A : ndarray2) (ijk : list float) : result (list float) :=
  matmul A (ijk ++ [1]).

Definition voxel_to_physical (A : ndarray2) (ijk : list float)
  : result (list float) :=
  fmap (firstn 3) (xyz1 A ijk).

Definition voxel_to_physical_rev (A : ndarray2) (ijk : list float)
  : result (list float) :=
  fmap (firstn 3) (matmul_with dot_rev A (ijk ++ [1])).

(** Entrywise difference of two 1-D arrays of one size. *)
Fixpoint vsub (u v : list float) : list float :=
  match u, v with
  | a :: u', b :: v' => (a - b) :: vsub u' v'
  | _, _ => []
  end.

(** The binary64 number nearest to one tenth. *)
Definition tenth : float := 0x1.999999999999ap-4.

(** An affine with voxels a tenth of a unit wide along the first axis. *)
Definition affine_tenth : ndarray2 :=
  array [[tenth; 0; 0; 0]; [0; 1; 0; 0]; [0; 0; 1; 0]; [0; 0; 0; 1]].

Close Scope float_scope.

End F64.

(** ** Shapes *)

Lemma length_4 {T : Type} (l : list T) :
  length l = 4%nat -> exists a b c d, l = [a; b; c; d].
Proof.
  destruct l as [|a [|b [|c [|d [|e l]]]]]; simpl; intros H; try discriminate.
  now exists a, b, c, d.
Qed.

(** A 4x4 array is [np.array] of four rows of four entries. *)
Lemma is_4x4_inv (A : ndarray2) :
  is_4x4 A ->
  exists r0 r1 r2 r3,
    A = array [r0; r1; r2; r3] /\
    length r0 = 4%nat /\ length r1 = 4%nat /\
    length r2 = 4%nat /\ length r3 = 4%nat.
Proof.
  destruct A as [n m rs]; unfold is_4x4, wf2; simpl.
  intros [[Hlen Hall] [Hn Hm]].
  rewrite Hn in Hlen; rewrite Hm in Hall; rewrite Hn, Hm; clear Hn Hm.
  destruct (length_4 rs Hlen) as (r0 & r1 & r2 & r3 & ->).
  repeat match goal with
         | H : Forall _ (_ :: _) |- _ => inversion H; subst; clear H
         end.
  exists r0, r1, r2, r3; unfold array; simpl.
  repeat split; try assumption.
  f_equal; congruence.
Qed.

Ltac break_4x4 A H :=
  let r0 := fresh "r0" in let r1 := fresh "r1" in
  let r2 := fresh "r2" in let r3 := fresh "r3" in
  let H0 := fresh in let H1 := fresh in let H2 := fresh in let H3 := fresh in
  destruct (is_4x4_inv A H) as (r0 & r1 & r2 & r3 & -> & H0 & H1 & H2 & H3);
  destruct (length_4 r0 H0) as (?a & ?a & ?a & ?a & ->);
  destruct (length_4 r1 H1) as (?b & ?b & ?b & ?b & ->);
  destruct (length_4 r2 H2) as (?c & ?c & ?c & ?c & ->);
  destruct (length_4 r3 H3) as (?d & ?d & ?d & ?d & ->);
  clear H0 H1 H2 H3.

Lemma array_is_4x4 (a0 a1 a2 a3 b0 b1 b2 b3 c0 c1 c2 c3 d0 d1 d2 d3 : R) :
  is_4x4 (array [[a0; a1; a2; a3]; [b0; b1; b2; b3];
                 [c0; c1; c2; c3]; [d0; d1; d2; d3]]).
Proof.
  unfold is_4x4, wf2, array; simpl.
  repeat split; repeat constructor.
Qed.

(** ** The concrete scenario *)

(** C2: for the affine [[-1,0,0,120],[0,1,0,-120],[0,0,1,-110],[0,0,0,1]]
    and the voxel coordinate (69, 119, 109), the notebook's product is
    (51, -1, -1, 1), and the physical coordinate is exactly (51, -1, -1). *)
Theorem scenario_51 :
  xyz1 affine_ras [69; 119; 109] = Ok [51; -1; -1; 1] /\
  voxel_to_physical affine_ras [69; 119; 109] = Ok [51; -1; -1].
Proof.
  unfold voxel_to_physical, fmap, bind, xyz1, matmul, affine_ras; simpl.
  split; repeat f_equal; lra.
Qed.

(** Equality of two lists of the same size, entry by entry. *)
Lemma cons_eq {T : Type} (a b : T) (l m : list T) :
  a = b -> l = m -> a :: l = b :: m.
Proof. now intros -> ->. Qed.

Ltac entrywise := repeat (apply cons_eq); try reflexivity.

(** ** The product and the homogenized triple *)

(** The product of a 4x4 affine with [(i, j, k, 1)], entry by entry. *)
Lemma xyz1_4x4 (A : ndarray2) (i j k : R) :
  is_4x4 A ->
  xyz1 A [i; j; k] =
  Ok [dot (row 0 A) [i; j; k; 1]; dot (row 1 A) [i; j; k; 1];
      dot (row 2 A) [i; j; k; 1]; dot (row 3 A) [i; j; k; 1]].
Proof.
  intros H; break_4x4 A H; reflexivity.
Qed.

Lemma voxel_to_physical_4x4 (A : ndarray2) (i j k : R) :
  is_4x4 A ->
  voxel_to_physical A [i; j; k] =
  Ok [dot (row 0 A) [i; j; k; 1]; dot (row 1 A) [i; j; k; 1];
      dot (row 2 A) [i; j; k; 1]].
Proof.
  intros H; unfold voxel_to_physical; rewrite (xyz1_4x4 A i j k H).
  reflexivity.
Qed.

Lemma is_4x4b_true (A : ndarray2) : is_4x4 A -> is_4x4b A = true.
Proof.
  intros (_ & Hn & Hm); unfold is_4x4b; now rewrite Hn, Hm.
Qed.

Lemma voxel_to_physical_spec_4x4 (A : ndarray2) (i j k : R) :
  is_4x4 A ->
  voxel_to_physical_spec A [i; j; k] =
  homogenize [dot (row 0 A) [i; j; k; 1]; dot (row 1 A) [i; j; k; 1];
              dot (row 2 A) [i; j; k; 1]; dot (row 3 A) [i; j; k; 1]].
Proof.
  intros H; unfold voxel_to_physical_spec.
  rewrite (is_4x4b_true A H).
  change (matmul A ([i; j; k] ++ [1])) with (xyz1 A [i; j; k]).
  rewrite (xyz1_4x4 A i j k H); reflexivity.
Qed.

Lemma homogenize_w1 (x y z : R) : homogenize [x; y; z; 1] = Ok [x; y; z].
Proof.
  unfold homogenize; destruct (Req_dec_T 1 0) as [E|_]; [lra|].
  repeat f_equal; field.
Qed.

Lemma homogenize_ok (x y z w : R) :
  w <> 0 -> homogenize [x; y; z; w] = Ok [x / w; y / w; z / w].
Proof.
  intros Hw; unfold homogenize; destruct (Req_dec_T w 0); [contradiction|].
  reflexivity.
Qed.

(** C1, as stated, fails: with the last row [[0, 0, 0, 2]] the notebook's
    product keeps (2, 4, 6), the homogenized triple is (1, 2, 3). *)
Lemma not_homogenized_w2 :
  is_4x4 affine_w2 /\
  xyz1 affine_w2 [2; 4; 6] = Ok [2; 4; 6; 2] /\
  voxel_to_physical affine_w2 [2; 4; 6] = Ok [2; 4; 6] /\
  voxel_to_physical_spec affine_w2 [2; 4; 6] = Ok [1; 2; 3] /\
  voxel_to_physical affine_w2 [2; 4; 6] <>
  voxel_to_physical_spec affine_w2 [2; 4; 6].
Proof.
  assert (H4 : is_4x4 affine_w2) by apply array_is_4x4.
  assert (Hc : voxel_to_physical affine_w2 [2; 4; 6] = Ok [2; 4; 6]).
  { rewrite (voxel_to_physical_4x4 _ _ _ _ H4); simpl.
    repeat f_equal; lra. }
  assert (Hs : voxel_to_physical_spec affine_w2 [2; 4; 6] = Ok [1; 2; 3]).
  { rewrite (voxel_to_physical_spec_4x4 _ _ _ _ H4); simpl.
    destruct (Req_dec_T _ 0) as [E|_]; [lra|].
    repeat f_equal; field. }
  repeat split; try assumption; try apply H4.
  - rewrite (xyz1_4x4 _ _ _ _ H4); simpl; repeat f_equal; lra.
  - rewrite Hc, Hs; intros E; injection E; lra.
Qed.

(** C1, amended: for a 4x4 affine the notebook's product is
    [(x', y', z', w)], the rows' products with [(i, j, k, 1)]; its world
    coordinate is [(x', y', z')], not divided by [w]; when [w = 1] that is
    the homogenized triple [(x'/w, y'/w, z'/w)]. *)
Theorem product_not_divided (A : ndarray2) (i j k : R) :
  is_4x4 A ->
  exists x' y' z' w,
    x' = dot (row 0 A) [i; j; k; 1] /\ y' = dot (row 1 A) [i; j; k; 1] /\
    z' = dot (row 2 A) [i; j; k; 1] /\ w = dot (row 3 A) [i; j; k; 1] /\
    xyz1 A [i; j; k] = Ok [x'; y'; z'; w] /\
    voxel_to_physical A [i; j; k] = Ok [x'; y'; z'] /\
    (w = 1 ->
     voxel_to_physical_spec A [i; j; k] = Ok [x' / w; y' / w; z' / w] /\
     voxel_to_physical A [i; j; k] = voxel_to_physical_spec A [i; j; k]).
Proof.
  intros H.
  exists (dot (row 0 A) [i; j; k; 1]), (dot (row 1 A) [i; j; k; 1]),
         (dot (row 2 A) [i; j; k; 1]), (dot (row 3 A) [i; j; k; 1]).
  do 4 (split; [reflexivity|]).
  split; [apply xyz1_4x4, H|].
  split; [apply voxel_to_physical_4x4, H|].
  intros Hw.
  rewrite (voxel_to_physical_spec_4x4 A i j k H),
          (voxel_to_physical_4x4 A i j k H).
  split.
  - apply homogenize_ok; lra.
  - rewrite Hw; now rewrite homogenize_w1.
Qed.

Lemma product_not_divided_witness :
  is_4x4 affine_ras /\
  exists x' y' z' w,
    x' = dot (row 0 affine_ras) [69; 119; 109; 1] /\
    y' = dot (row 1 affine_ras) [69; 119; 109; 1] /\
    z' = dot (row 2 affine_ras) [69; 119; 109; 1] /\
    w = dot (row 3 affine_ras) [69; 119; 109; 1] /\
    xyz1 affine_ras [69; 119; 109] = Ok [x'; y'; z'; w] /\
    voxel_to_physical affine_ras [69; 119; 109] = Ok [x'; y'; z'] /\
    (w = 1 ->
     voxel_to_physical_spec affine_ras [69; 119; 109] =
     Ok [x' / w; y' / w; z' / w] /\
     voxel_to_physical affine_ras [69; 119; 109] =
     voxel_to_physical_spec affine_ras [69; 119; 109]).
Proof.
  split; [apply array_is_4x4|].
  apply (product_not_divided affine_ras 69 119 109), array_is_4x4.
Defined.

(** C9: when the last row of the 4x4 affine is [[0, 0, 0, 1]], the
    division-free product [A @ (i, j, k, 1)] has fourth entry 1 and its
    first three entries are the homogenized triple of the multiply-then-divide
    algorithm: the two formulations are equal. *)
Theorem last_row_refines (A : ndarray2) (i j k : R) :
  is_4x4 A ->
  row 3 A = [0; 0; 0; 1] ->
  exists x y z,
    xyz1 A [i; j; k] = Ok [x; y; z; 1] /\
    voxel_to_physical_spec A [i; j; k] = Ok [x; y; z] /\
    voxel_to_physical A [i; j; k] = voxel_to_physical_spec A [i; j; k].
Proof.
  intros H Hrow.
  assert (Hw : dot (row 3 A) [i; j; k; 1] = 1) by (rewrite Hrow; simpl; lra).
  exists (dot (row 0 A) [i; j; k; 1]), (dot (row 1 A) [i; j; k; 1]),
         (dot (row 2 A) [i; j; k; 1]).
  rewrite (xyz1_4x4 A i j k H), (voxel_to_physical_spec_4x4 A i j k H),
          (voxel_to_physical_4x4 A i j k H), Hw, homogenize_w1.
  repeat split.
Qed.

Lemma last_row_refines_witness :
  is_4x4 affine_ras /\ row 3 affine_ras = [0; 0; 0; 1] /\
  exists x y z,
    xyz1 affine_ras [69; 119; 109] = Ok [x; y; z; 1] /\
    voxel_to_physical_spec affine_ras [69; 119; 109] = Ok [x; y; z] /\
    voxel_to_physical affine_ras [69; 119; 109] =
    voxel_to_physical_spec affine_ras [69; 119; 109].
Proof.
  split; [apply array_is_4x4|]. split; [reflexivity|].
  apply (last_row_refines affine_ras 69 119 109);
    [apply array_is_4x4 | reflexivity].
Defined.

(** ** Linearity in the first coordinate *)

Lemma dot4 (a0 a1 a2 a3 i j k l : R) :
  dot [a0; a1; a2; a3] [i; j; k; l] = a0 * i + a1 * j + a2 * k + a3 * l.
Proof. simpl; ring. Qed.

(** C7, amended: in exact arithmetic (entries and scalars real numbers,
    products and sums not rounded), for a 4x4 affine the world coordinates
    satisfy [v(i1+i2, j, k) - v(i2, j, k) = v(i1, 0, 0) - v(0, 0, 0)]: the
    translation cancels on both sides. *)
Theorem first_coordinate_linear (A : ndarray2) (i1 i2 j k : R) :
  is_4x4 A ->
  exists p q r s,
    voxel_to_physical A [i1 + i2; j; k] = Ok p /\
    voxel_to_physical A [i2; j; k] = Ok q /\
    voxel_to_physical A [i1; 0; 0] = Ok r /\
    voxel_to_physical A [0; 0; 0] = Ok s /\
    length p = 3%nat /\ length q = 3%nat /\
    length r = 3%nat /\ length s = 3%nat /\
    vsub p q = vsub r s.
Proof.
  intros H.
  do 4 eexists.
  repeat (split; [apply (voxel_to_physical_4x4 A _ _ _ H)|]).
  repeat (split; [reflexivity|]).
  break_4x4 A H; unfold row; cbn [rows array nth vsub].
  rewrite !dot4; entrywise; ring.
Qed.

Lemma first_coordinate_linear_witness :
  is_4x4 affine_ras /\
  exists p q r s,
    voxel_to_physical affine_ras [60 + 9; 119; 109] = Ok p /\
    voxel_to_physical affine_ras [9; 119; 109] = Ok q /\
    voxel_to_physical affine_ras [60; 0; 0] = Ok r /\
    voxel_to_physical affine_ras [0; 0; 0] = Ok s /\
    length p = 3%nat /\ length q = 3%nat /\
    length r = 3%nat /\ length s = 3%nat /\
    vsub p q = vsub r s.
Proof.
  split; [apply array_is_4x4|].
  apply (first_coordinate_linear affine_ras 60 9 119 109), array_is_4x4.
Defined.

(** C7, as stated, fails for the notebook's binary64 product: with a first
    column entry of one tenth, the step from voxel 2 to voxel 1 + 2 moves
    the first coordinate by 0x1.999999999999cp-4, the step from voxel 0 to
    voxel 1 by 0x1.999999999999ap-4.  All other products are zeros, so the
    order of the sum does not matter. *)
Lemma float64_not_linear :
  F64.voxel_to_physical F64.affine_tenth [1 + 2; 0; 0]%float =
  Ok [0x1.3333333333334p-2; 0; 0]%float /\
  F64.voxel_to_physical F64.affine_tenth [2; 0; 0]%float =
  Ok [0x1.999999999999ap-3; 0; 0]%float /\
  F64.voxel_to_physical F64.affine_tenth [1; 0; 0]%float =
  Ok [0x1.999999999999ap-4; 0; 0]%float /\
  F64.voxel_to_physical F64.affine_tenth [0; 0; 0]%float =
  Ok [0; 0; 0]%float /\
  F64.vsub [0x1.3333333333334p-2; 0; 0]%float
           [0x1.999999999999ap-3; 0; 0]%float =
  [0x1.999999999999cp-4; 0; 0]%float /\
  F64.vsub [0x1.999999999999ap-4; 0; 0]%float [0; 0; 0]%float =
  [0x1.999999999999ap-4; 0; 0]%float /\
  F64.vsub [0x1.3333333333334p-2; 0; 0]%float
           [0x1.999999999999ap-3; 0; 0]%float <>
  F64.vsub [0x1.999999999999ap-4; 0; 0]%float [0; 0; 0]%float /\
  F64.voxel_to_physical_rev F64.affine_tenth [1 + 2; 0; 0]%float =
  Ok [0x1.3333333333334p-2; 0; 0]%float /\
  F64.voxel_to_physical_rev F64.affine_tenth [2; 0; 0]%float =
  Ok [0x1.999999999999ap-3; 0; 0]%float /\
  F64.voxel_to_physical_rev F64.affine_tenth [1; 0; 0]%float =
  Ok [0x1.999999999999ap-4; 0; 0]%float /\
  F64.voxel_to_physical_rev F64.affine_tenth [0; 0; 0]%float =
  Ok [0; 0; 0]%float.
Proof.
  repeat split; try (vm_compute; reflexivity).
  intros E.
  apply (f_equal (fun l => match l with
                           | f :: _ => PrimFloat.eqb f F64.tenth
                           | [] => false
                           end)) in E.
  vm_compute in E; discriminate E.
Qed.

(** The homogenized triple is not linear when the last row is not
    [[0, 0, 0, 1]]: with [affine_proj] the two differences are
    (1/6, -1/2, 1/3) and (1/2, -3/2, 1). *)
Example homogenized_not_linear :
  voxel_to_physical_spec affine_proj [1 + 1; 0; 0] = Ok [5 / 3; 1; - (2 / 3)] /\
  voxel_to_physical_spec affine_proj [1; 0; 0] = Ok [3 / 2; 3 / 2; -1] /\
  voxel_to_physical_spec affine_proj [0; 0; 0] = Ok [1; 3; -2] /\
  vsub [5 / 3; 1; - (2 / 3)] [3 / 2; 3 / 2; -1] <>
  vsub [3 / 2; 3 / 2; -1] [1; 3; -2].
Proof.
  assert (H : is_4x4 affine_proj) by apply array_is_4x4.
  repeat split.
  - rewrite (voxel_to_physical_spec_4x4 _ _ _ _ H); simpl.
    destruct (Req_dec_T _ 0) as [E|_]; [lra|]; f_equal; entrywise; field.
  - rewrite (voxel_to_physical_spec_4x4 _ _ _ _ H); simpl.
    destruct (Req_dec_T _ 0) as [E|_]; [lra|]; f_equal; entrywise; field.
  - rewrite (voxel_to_physical_spec_4x4 _ _ _ _ H); simpl.
    destruct (Req_dec_T _ 0) as [E|_]; [lra|]; f_equal; entrywise; field.
  - simpl; intros E; injection E; lra.
Qed.

(** ** Shape errors *)

(** The only shape that [@] compares: the affine's columns against the size
    of the coordinate vector. *)
Lemma xyz1_cases (A : ndarray2) (ijk : list R) :
  (ncols A = S (length ijk) /\
   xyz1 A ijk = Ok (map (fun r => dot r (ijk ++ [1])) (rows A))) \/
  (ncols A <> S (length ijk) /\ xyz1 A ijk = Err ShapeMismatch).
Proof.
  unfold xyz1, matmul.
  rewrite length_app, Nat.add_1_r.
  destruct (Nat.eqb_spec (ncols A) (S (length ijk))); [left|right]; now split.
Qed.

(** C4, as stated, fails: a 3x4 array is not 4x4, and the notebook's product
    with three coordinate scalars raises nothing. *)
Lemma no_error_3x4 :
  wf2 affine_3x4 /\ nrows affine_3x4 = 3%nat /\ ncols affine_3x4 = 4%nat /\
  ~ is_4x4 affine_3x4 /\
  xyz1 affine_3x4 [1; 2; 3] = Ok [1; 2; 3] /\
  voxel_to_physical affine_3x4 [1; 2; 3] = Ok [1; 2; 3] /\
  voxel_to_physical affine_3x4 [1; 2; 3] <> Err ShapeMismatch.
Proof.
  assert (Hx : xyz1 affine_3x4 [1; 2; 3] = Ok [1; 2; 3]).
  { unfold xyz1, matmul, affine_3x4; simpl; repeat f_equal; lra. }
  assert (Hv : voxel_to_physical affine_3x4 [1; 2; 3] = Ok [1; 2; 3]).
  { unfold voxel_to_physical; rewrite Hx; reflexivity. }
  repeat split; try assumption.
  - repeat constructor.
  - intros (_ & Hn & _); discriminate Hn.
  - rewrite Hv; discriminate.
Qed.

(** C4, amended: the notebook's product raises the shape error exactly when
    the affine's number of columns differs from the number of coordinate
    scalars plus one, so for a matrix of three columns with three scalars and
    for a 4x4 matrix with two scalars; it raises no other error; otherwise
    the product has one entry per row of the affine, whatever the number of
    rows. *)
Theorem shape_error_iff_columns (A : ndarray2) (ijk : list R) :
  (voxel_to_physical A ijk = Err ShapeMismatch <->
   ncols A <> S (length ijk)) /\
  (forall e, voxel_to_physical A ijk = Err e -> e = ShapeMismatch) /\
  (ncols A = 3%nat -> length ijk = 3%nat ->
   voxel_to_physical A ijk = Err ShapeMismatch) /\
  (ncols A = 4%nat -> length ijk = 2%nat ->
   voxel_to_physical A ijk = Err ShapeMismatch) /\
  (wf2 A -> ncols A = S (length ijk) ->
   exists v, xyz1 A ijk = Ok v /\ length v = nrows A /\
             voxel_to_physical A ijk = Ok (upto 3 v)).
Proof.
  unfold voxel_to_physical.
  destruct (xyz1_cases A ijk) as [[Hc ->]|[Hc ->]]; simpl.
  - split; [split; [discriminate | intros Hn; now elim Hn]|].
    split; [discriminate|].
    split; [intros H3 Hl; rewrite H3, Hl in Hc; discriminate|].
    split; [intros H4 Hl; rewrite H4, Hl in Hc; discriminate|].
    intros [Hlen _] _; eexists; split; [reflexivity|].
    split; [now rewrite length_map | reflexivity].
  - split; [split; [intros _; exact Hc | reflexivity]|].
    split; [intros e E; now injection E|].
    split; [reflexivity|]. split; [reflexivity|].
    intros _ E; now elim Hc.
Qed.

Lemma shape_error_iff_columns_witness :
  (voxel_to_physical (array [[1; 0; 0]; [0; 1; 0]; [0; 0; 1]]) [1; 2; 3] =
   Err ShapeMismatch) /\
  (voxel_to_physical affine_ras [69; 119] = Err ShapeMismatch) /\
  (wf2 affine_3x4 /\ ncols affine_3x4 = S (length [1; 2; 3]) /\
   exists v, xyz1 affine_3x4 [1; 2; 3] = Ok v /\ length v = nrows affine_3x4 /\
             voxel_to_physical affine_3x4 [1; 2; 3] = Ok (upto 3 v)).
Proof.
  split.
  { destruct (shape_error_iff_columns
                (array [[1; 0; 0]; [0; 1; 0]; [0; 0; 1]]) [1; 2; 3])
      as (_ & _ & H33 & _).
    apply H33; reflexivity. }
  split.
  { destruct (shape_error_iff_columns affine_ras [69; 119])
      as (_ & _ & _ & H42 & _).
    apply H42; reflexivity. }
  assert (Hwf : wf2 affine_3x4) by (split; repeat constructor).
  split; [exact Hwf|]. split; [reflexivity|].
  destruct (shape_error_iff_columns affine_3x4 [1; 2; 3])
    as (_ & _ & _ & _ & Hok).
  apply Hok; [exact Hwf | reflexivity].
Defined.

(** ** The matrix inverse of a 4x4 array *)

Lemma dot_scale_l (d : R) (u v : list R) :
  dot (map (fun c => c / d) u) v = dot u v / d.
Proof.
  revert v; induction u as [|a u IH]; intros [|b v]; simpl;
    try (unfold Rdiv; ring).
  rewrite IH; unfold Rdiv; ring.
Qed.

Lemma dot_scale_r (d : R) (u v : list R) :
  dot u (map (fun c => c / d) v) = dot u v / d.
Proof.
  revert v; induction u as [|a u IH]; intros [|b v]; simpl;
    try (unfold Rdiv; ring).
  rewrite IH; unfold Rdiv; ring.
Qed.

Lemma nth_scale (d : R) (j : nat) (r : list R) :
  nth j (map (fun c => c / d) r) 0 = nth j r 0 / d.
Proof.
  revert j; induction r as [|a r IH]; intros [|j]; simpl;
    try (unfold Rdiv; ring); try reflexivity.
  apply IH.
Qed.

Lemma matmul_scale_l (d : R) (X : ndarray2) (v : list R) :
  matmul (div2 X d) v = fmap (map (fun c => c / d)) (matmul X v).
Proof.
  unfold matmul, div2; simpl.
  destruct (Nat.eqb (ncols X) (length v)); simpl; [|reflexivity].
  rewrite !map_map; f_equal; apply map_ext; intros r; apply dot_scale_l.
Qed.

Lemma matmul2_scale_l (d : R) (X B : ndarray2) :
  matmul2 (div2 X d) B = fmap (fun C => div2 C d) (matmul2 X B).
Proof.
  unfold matmul2, div2; simpl.
  destruct (Nat.eqb (ncols X) (nrows B)); simpl; [|reflexivity].
  do 2 f_equal; rewrite !map_map; apply map_ext; intros r.
  rewrite map_map; apply map_ext; intros c; apply dot_scale_l.
Qed.

Lemma columns_scale (d : R) (X : ndarray2) :
  columns (div2 X d) = map (map (fun c => c / d)) (columns X).
Proof.
  unfold columns, div2; simpl.
  rewrite map_map; apply map_ext; intros j.
  rewrite !map_map; apply map_ext; intros r; apply nth_scale.
Qed.

Lemma matmul2_scale_r (d : R) (A X : ndarray2) :
  matmul2 A (div2 X d) = fmap (fun C => div2 C d) (matmul2 A X).
Proof.
  unfold matmul2; rewrite columns_scale; unfold div2; simpl.
  destruct (Nat.eqb (ncols A) (nrows X)); simpl; [|reflexivity].
  do 2 f_equal; rewrite map_map; apply map_ext; intros r.
  rewrite !map_map; apply map_ext; intros c; apply dot_scale_r.
Qed.

Lemma matmul_scale_r (d : R) (B : ndarray2) (v : list R) :
  matmul B (map (fun c => c / d) v) =
  fmap (map (fun c => c / d)) (matmul B v).
Proof.
  unfold matmul; rewrite length_map.
  destruct (Nat.eqb (ncols B) (length v)); simpl; [|reflexivity].
  rewrite map_map; f_equal; apply map_ext; intros r; apply dot_scale_r.
Qed.

Section Inverse4.

Variables a0 a1 a2 a3 b0 b1 b2 b3 c0 c1 c2 c3 d0 d1 d2 d3 : R.

Let M : list (list R) :=
  [[a0; a1; a2; a3]; [b0; b1; b2; b3]; [c0; c1; c2; c3]; [d0; d1; d2; d3]].

(** The adjugate times the matrix, and the matrix times the adjugate, are
    the determinant times the identity. *)
Lemma adjugate_left :
  matmul2 (array (adjugate 4 M)) (array M) =
  Ok (mk2 4 4 (map (map (Rmult (det 4 M))) (rows (eye 4)))).
Proof.
  unfold matmul2, columns, array; cbn -[Rmult Rplus Ropp].
  do 2 f_equal.
  entrywise; ring.
Qed.

Lemma adjugate_right :
  matmul2 (array M) (array (adjugate 4 M)) =
  Ok (mk2 4 4 (map (map (Rmult (det 4 M))) (rows (eye 4)))).
Proof.
  unfold matmul2, columns, array; cbn -[Rmult Rplus Ropp].
  do 2 f_equal.
  entrywise; ring.
Qed.

(** The adjugate undoes the matrix on a vector, up to the determinant. *)
Lemma adjugate_apply (i j k l : R) :
  bind (matmul (array M) [i; j; k; l]) (matmul (array (adjugate 4 M))) =
  Ok (map (Rmult (det 4 M)) [i; j; k; l]).
Proof.
  unfold matmul, array; cbn -[Rmult Rplus Ropp].
  f_equal; entrywise; ring.
Qed.


(** Two identical rows in the leading block: its determinant is zero. *)
Lemma det_twin_rows :
  a0 = b0 -> a1 = b1 -> a2 = b2 -> det 3 (leading3 (array M)) = 0.
Proof.
  intros -> -> ->; unfold leading3; cbn -[Rmult Rplus Ropp]; ring.
Qed.




End Inverse4.

Lemma eye_scaled (d : R) :
  d <> 0 -> div2 (mk2 4 4 (map (map (Rmult d)) (rows (eye 4)))) d = eye 4.
Proof.
  intros Hd; unfold div2, eye; simpl; f_equal.
  entrywise; now field.
Qed.

(** A 4x4 array of nonzero determinant has a matrix inverse, and [inv]
    returns it. *)
Lemma inv_4x4 (A : ndarray2) :
  is_4x4 A -> det 4 (rows A) <> 0 ->
  exists B,
    inv A = Ok B /\ is_4x4 B /\
    matmul2 B A = Ok (eye 4) /\ matmul2 A B = Ok (eye 4) /\
    forall i j k l, bind (matmul A [i; j; k; l]) (matmul B) = Ok [i; j; k; l].
Proof.
  intros H Hd; break_4x4 A H.
  set (M := [[a; a0; a1; a2]; [b; b0; b1; b2];
             [c; c0; c1; c2]; [d; d0; d1; d2]]) in *.
  change (rows (array M)) with M in Hd.
  exists (div2 (array (adjugate 4 M)) (det 4 M)).
  split; [|split; [|split; [|split]]].
  - unfold inv; change (nrows (array M)) with 4%nat;
      change (ncols (array M)) with 4%nat; change (rows (array M)) with M.
    rewrite Nat.eqb_refl.
    destruct (Req_dec_T (det 4 M) 0) as [E|_]; [contradiction|reflexivity].
  - unfold is_4x4, wf2, div2; simpl; repeat split; repeat constructor.
  - rewrite matmul2_scale_l; unfold M; rewrite adjugate_left; simpl.
    f_equal; now apply eye_scaled.
  - rewrite matmul2_scale_r; unfold M; rewrite adjugate_right; simpl.
    f_equal; now apply eye_scaled.
  - intros i j k l.
    assert (Ha := adjugate_apply a a0 a1 a2 b b0 b1 b2 c c0 c1 c2 d d0 d1 d2
                                 i j k l).
    fold M in Ha.
    destruct (matmul (array M) [i; j; k; l]) as [u|e]; [|discriminate Ha].
    cbn [bind] in Ha |- *; rewrite matmul_scale_l, Ha; cbn [fmap bind map].
    f_equal; entrywise; field; exact Hd.
Qed.

(** ** The inverse direction *)

Lemma physical_to_voxel_4x4 (A : ndarray2) (x y z : R) :
  is_4x4 A ->
  physical_to_voxel A [x; y; z] =
  if Req_dec_T (det 3 (leading3 A)) 0 then Err SingularMatrix
  else match inv A with
       | Ok B => voxel_to_physical_spec B [x; y; z]
       | Err _ => Err DegenerateTransform
       end.
Proof.
  intros H; unfold physical_to_voxel; now rewrite (is_4x4b_true A H).
Qed.

Lemma inv_singular (A : ndarray2) :
  is_4x4 A -> det 4 (rows A) = 0 -> inv A = Err SingularMatrix.
Proof.
  intros (_ & Hn & Hm) Hd; unfold inv; rewrite Hn, Hm; simpl Nat.eqb; cbv iota.
  destruct (Req_dec_T (det 4 (rows A)) 0); [reflexivity|contradiction].
Qed.




(** An affine with a regular leading block and no matrix inverse: the case
    that section 9 leaves to an explicit error. *)
Example regular_block_no_inverse :
  det 3 (leading3 affine_flat) = 1 /\
  det 4 (rows affine_flat) = 0 /\
  inv affine_flat = Err SingularMatrix /\
  physical_to_voxel affine_flat [1; 2; 3] = Err DegenerateTransform.
Proof.
  assert (H4 : is_4x4 affine_flat) by apply array_is_4x4.
  assert (H3 : det 3 (leading3 affine_flat) = 1).
  { unfold leading3, affine_flat; cbn -[Rmult Rplus Ropp]; ring. }
  assert (Hd : det 4 (rows affine_flat) = 0).
  { unfold affine_flat; cbn -[Rmult Rplus Ropp]; ring. }
  repeat split; try assumption.
  - exact (inv_singular _ H4 Hd).
  - rewrite (physical_to_voxel_4x4 _ _ _ _ H4).
    destruct (Req_dec_T _ 0) as [E|_]; [rewrite H3 in E; lra|].
    now rewrite (inv_singular _ H4 Hd).
Qed.



(** ** The round trip *)

(** C3, as stated, fails: [affine_twin] has homogeneous term 1 at
    (1, 2, 3), which it maps to (1, 1, 3), and it cannot be inverted. *)
Lemma no_way_back_singular :
  is_4x4 affine_twin /\
  dot (row 3 affine_twin) [1; 2; 3; 1] = 1 /\
  voxel_to_physical affine_twin [1; 2; 3] = Ok [1; 1; 3] /\
  voxel_to_physical_spec affine_twin [1; 2; 3] = Ok [1; 1; 3] /\
  physical_to_voxel affine_twin [1; 1; 3] = Err SingularMatrix /\
  physical_to_voxel affine_twin [1; 1; 3] <> Ok [1; 2; 3].
Proof.
  assert (H4 : is_4x4 affine_twin) by apply array_is_4x4.
  assert (Hw : dot (row 3 affine_twin) [1; 2; 3; 1] = 1) by (simpl; lra).
  assert (Hp : physical_to_voxel affine_twin [1; 1; 3] = Err SingularMatrix).
  { rewrite (physical_to_voxel_4x4 _ _ _ _ H4).
    destruct (Req_dec_T _ 0) as [_|N]; [reflexivity|].
    elim N; now apply det_twin_rows. }
  repeat split; try assumption; try apply H4.
  - rewrite (voxel_to_physical_4x4 _ _ _ _ H4); simpl; f_equal; entrywise; lra.
  - rewrite (voxel_to_physical_spec_4x4 _ _ _ _ H4).
    rewrite Hw, homogenize_w1; simpl; f_equal; entrywise; lra.
  - rewrite Hp; discriminate.
Qed.

(** If [B] sends [(x', y', z', w)] to [(i, j, k, 1)], multiply and
    homogenize with [B] sends [(x'/w, y'/w, z'/w)] to [(i, j, k)]. *)
Lemma homogenized_back (B : ndarray2) (x' y' z' w i j k : R) :
  is_4x4 B -> w <> 0 ->
  matmul B [x'; y'; z'; w] = Ok [i; j; k; 1] ->
  voxel_to_physical_spec B [x' / w; y' / w; z' / w] = Ok [i; j; k].
Proof.
  intros HB Hw Hinv.
  unfold voxel_to_physical_spec; rewrite (is_4x4b_true B HB); simpl.
  replace [x' / w; y' / w; z' / w; 1]
    with (map (fun c => c / w) [x'; y'; z'; w])
    by (simpl; entrywise; now field).
  rewrite matmul_scale_r, Hinv; simpl.
  assert (Hw' : 1 / w <> 0).
  { unfold Rdiv; rewrite Rmult_1_l; now apply Rinv_neq_0_compat. }
  destruct (Req_dec_T (1 / w) 0) as [E|_]; [contradiction|].
  f_equal; entrywise; now field.
Qed.

(** C3, amended: for a 4x4 affine that [physical_to_voxel] can invert
    (neither the leading 3x3 submatrix nor the whole affine has determinant
    zero) and a voxel coordinate whose homogeneous term [w] is not zero,
    [physical_to_voxel] applied to the homogenized [voxel_to_physical]
    returns the voxel coordinate exactly; when [w = 1] the notebook's
    division-free product is that same point. *)
Theorem round_trip_exact (A : ndarray2) (i j k : R) :
  is_4x4 A ->
  det 3 (leading3 A) <> 0 ->
  det 4 (rows A) <> 0 ->
  dot (row 3 A) [i; j; k; 1] <> 0 ->
  exists p,
    voxel_to_physical_spec A [i; j; k] = Ok p /\
    physical_to_voxel A p = Ok [i; j; k] /\
    (dot (row 3 A) [i; j; k; 1] = 1 -> voxel_to_physical A [i; j; k] = Ok p).
Proof.
  intros H N3 N4 Hw.
  set (x' := dot (row 0 A) [i; j; k; 1]).
  set (y' := dot (row 1 A) [i; j; k; 1]).
  set (z' := dot (row 2 A) [i; j; k; 1]).
  set (w := dot (row 3 A) [i; j; k; 1]) in *.
  exists [x' / w; y' / w; z' / w].
  split; [|split].
  - rewrite (voxel_to_physical_spec_4x4 A i j k H); now apply homogenize_ok.
  - rewrite (physical_to_voxel_4x4 A _ _ _ H).
    destruct (Req_dec_T (det 3 (leading3 A)) 0) as [E3|_]; [contradiction|].
    destruct (inv_4x4 A H N4) as (B & -> & HB & _ & _ & Hinv); simpl.
    specialize (Hinv i j k 1).
    change (matmul A [i; j; k; 1]) with (xyz1 A [i; j; k]) in Hinv.
    rewrite (xyz1_4x4 A i j k H) in Hinv; simpl in Hinv.
    now apply homogenized_back.
  - intros E; rewrite (voxel_to_physical_4x4 A i j k H).
    fold x' y' z'; rewrite E; f_equal; entrywise; field.
Qed.

Lemma round_trip_exact_witness :
  is_4x4 affine_ras /\
  det 3 (leading3 affine_ras) <> 0 /\
  det 4 (rows affine_ras) <> 0 /\
  dot (row 3 affine_ras) [69; 119; 109; 1] <> 0 /\
  exists p,
    voxel_to_physical_spec affine_ras [69; 119; 109] = Ok p /\
    physical_to_voxel affine_ras p = Ok [69; 119; 109] /\
    (dot (row 3 affine_ras) [69; 119; 109; 1] = 1 ->
     voxel_to_physical affine_ras [69; 119; 109] = Ok p).
Proof.
  assert (H3 : det 3 (leading3 affine_ras) <> 0).
  { unfold leading3, affine_ras; cbn -[Rmult Rplus Ropp]; lra. }
  assert (H4 : det 4 (rows affine_ras) <> 0).
  { unfold affine_ras; cbn -[Rmult Rplus Ropp]; lra. }
  assert (Hw : dot (row 3 affine_ras) [69; 119; 109; 1] <> 0).
  { simpl; lra. }
  split; [apply array_is_4x4|].
  split; [exact H3|]. split; [exact H4|]. split; [exact Hw|].
  assert (Hs : is_4x4 affine_ras) by apply array_is_4x4.
  apply (round_trip_exact affine_ras 69 119 109 Hs H3 H4 Hw).
Defined.

(** The round trip through an affine whose last row is not
    [[0, 0, 0, 1]]: (1, 2, 3) has homogeneous term 2. *)
Example there_and_back_projective :
  voxel_to_physical_spec affine_proj [1; 2; 3] = Ok [3 / 2; 5 / 2; 5] /\
  physical_to_voxel affine_proj [3 / 2; 5 / 2; 5] = Ok [1; 2; 3].
Proof.
  assert (H : is_4x4 affine_proj) by apply array_is_4x4.
  assert (H3 : det 3 (leading3 affine_proj) <> 0).
  { unfold leading3, affine_proj; cbn -[Rmult Rplus Ropp]; lra. }
  assert (H4 : det 4 (rows affine_proj) <> 0).
  { unfold affine_proj; cbn -[Rmult Rplus Ropp]; lra. }
  split.
  - rewrite (voxel_to_physical_spec_4x4 _ _ _ _ H); simpl.
    destruct (Req_dec_T _ 0) as [E|_]; [lra|].
    f_equal; entrywise; field.
  - rewrite (physical_to_voxel_4x4 _ _ _ _ H).
    destruct (Req_dec_T (det 3 (leading3 affine_proj)) 0); [contradiction|].
    destruct (inv_4x4 affine_proj H H4) as (B & -> & HB & _ & _ & Hinv); simpl.
    specialize (Hinv 1 2 3 1).
    assert (E : matmul affine_proj [1; 2; 3; 1] = Ok [3; 5; 10; 2]).
    { unfold matmul, affine_proj; simpl; f_equal; entrywise; ring. }
    rewrite E in Hinv; simpl in Hinv.
    replace [3 / 2; 5 / 2; 5] with [3 / 2; 5 / 2; 10 / 2]
      by (entrywise; field).
    apply (homogenized_back B 3 5 10 2 1 2 3 HB); [lra | exact Hinv].
Qed.

(** ** Basic indexing of the volumes *)

Lemma slice_length_full (n : Z) : (0 <= n)%Z -> slice_length 0 n 1 = n.
Proof.
  intros Hn; unfold slice_length; simpl.
  destruct (Z.ltb_spec 0 n); [rewrite Z.div_1_r; lia | lia].
Qed.

(** An integer index on one axis of a 3-D array, slices on the other two:
    the axis is gone from the result. *)
Lemma getitem_int_axis0 {T : Type} (a : ndarray T) (n0 n1 n2 i : Z) :
  shape a = [n0; n1; n2] -> (0 <= n1)%Z -> (0 <= n2)%Z -> (0 <= i < n0)%Z ->
  exists s, getitem a [Int i; full; full] = Ok s /\ shape s = [n1; n2] /\
            forall j k, item s [j; k] = item a [i; j; k].
Proof.
  intros Hs H1 H2 Hi; unfold getitem; rewrite Hs.
  cbn -[Z.add Z.mul slice_length].
  replace ((- n0 <=? i)%Z && (i <? n0)%Z) with true
    by (symmetry; apply andb_true_iff; split;
        [apply Z.leb_le | apply Z.ltb_lt]; lia).
  cbn -[Z.add Z.mul slice_length]; eexists; split; [reflexivity|].
  cbn -[Z.add Z.mul slice_length].
  rewrite !slice_length_full by assumption; split; [reflexivity|].
  intros j k; destruct (Z.ltb_spec i 0); [lia|].
  f_equal; entrywise; lia.
Qed.

Lemma getitem_int_axis1 {T : Type} (a : ndarray T) (n0 n1 n2 i : Z) :
  shape a = [n0; n1; n2] -> (0 <= n0)%Z -> (0 <= n2)%Z -> (0 <= i < n1)%Z ->
  exists s, getitem a [full; Int i; full] = Ok s /\ shape s = [n0; n2] /\
            forall j k, item s [j; k] = item a [j; i; k].
Proof.
  intros Hs H0 H2 Hi; unfold getitem; rewrite Hs.
  cbn -[Z.add Z.mul slice_length].
  replace ((- n1 <=? i)%Z && (i <? n1)%Z) with true
    by (symmetry; apply andb_true_iff; split;
        [apply Z.leb_le | apply Z.ltb_lt]; lia).
  cbn -[Z.add Z.mul slice_length]; eexists; split; [reflexivity|].
  cbn -[Z.add Z.mul slice_length].
  rewrite !slice_length_full by assumption; split; [reflexivity|].
  intros j k; destruct (Z.ltb_spec i 0); [lia|].
  f_equal; entrywise; lia.
Qed.

Lemma getitem_int_axis2 {T : Type} (a : ndarray T) (n0 n1 n2 i : Z) :
  shape a = [n0; n1; n2] -> (0 <= n0)%Z -> (0 <= n1)%Z -> (0 <= i < n2)%Z ->
  exists s, getitem a [full; full; Int i] = Ok s /\ shape s = [n0; n1] /\
            forall j k, item s [j; k] = item a [j; k; i].
Proof.
  intros Hs H0 H1 Hi; unfold getitem; rewrite Hs.
  cbn -[Z.add Z.mul slice_length].
  replace ((- n2 <=? i)%Z && (i <? n2)%Z) with true
    by (symmetry; apply andb_true_iff; split;
        [apply Z.leb_le | apply Z.ltb_lt]; lia).
  cbn -[Z.add Z.mul slice_length]; eexists; split; [reflexivity|].
  cbn -[Z.add Z.mul slice_length].
  rewrite !slice_length_full by assumption; split; [reflexivity|].
  intros j k; destruct (Z.ltb_spec i 0); [lia|].
  f_equal; entrywise; lia.
Qed.

(** C10: for the volume of shape (240, 240, 220), [img_data[119, :, :]] has
    shape (240, 220), not (1, 240, 220), and its entry at (j, k) is the
    volume's entry at (119, j, k); the same holds for an integer on the
    second and on the third axis ([img_data[:, 99, :]],
    [img_data[:, :, 99]]). *)
Theorem integer_index_removes_axis {T : Type} (img_data : ndarray T) :
  shape img_data = [240; 240; 220]%Z ->
  (exists s, mid_slice_x img_data = Ok s /\ shape s = [240; 220]%Z /\
             forall j k, item s [j; k] = item img_data [119; j; k]%Z) /\
  (exists s, getitem img_data [full; Int 99; full] = Ok s /\
             shape s = [240; 220]%Z /\
             forall j k, item s [j; k] = item img_data [j; 99; k]%Z) /\
  (exists s, getitem img_data [full; full; Int 99] = Ok s /\
             shape s = [240; 240]%Z /\
             forall j k, item s [j; k] = item img_data [j; k; 99]%Z).
Proof.
  intros Hs; split; [|split].
  - apply (getitem_int_axis0 img_data 240 240 220 119 Hs); lia.
  - apply (getitem_int_axis1 img_data 240 240 220 99 Hs); lia.
  - apply (getitem_int_axis2 img_data 240 240 220 99 Hs); lia.
Qed.

Lemma integer_index_removes_axis_witness :
  shape (ramp [240; 240; 220]%Z) = [240; 240; 220]%Z /\
  exists s, mid_slice_x (ramp [240; 240; 220]%Z) = Ok s /\
            shape s = [240; 220]%Z /\
            forall j k,
              item s [j; k] = item (ramp [240; 240; 220]%Z) [119; j; k]%Z.
Proof.
  split; [reflexivity|].
  apply (integer_index_removes_axis (ramp [240; 240; 220]%Z)); reflexivity.
Defined.

(** C6: for a volume of shape (80, 80, 44, 50) the odd timepoints,
    [f_img_data[:, :, :, 1::2]], have shape (80, 80, 44, 25); the entry at
    (x, y, z, t) is the volume's entry at (x, y, z, 2t+1), and the indices
    2t+1 for t below 25 are all the odd indices below 50. *)
Theorem odd_timepoints_shape {T : Type} (f_img_data : ndarray T) :
  shape f_img_data = [80; 80; 44; 50]%Z ->
  exists s,
    f_img_data_odd f_img_data = Ok s /\
    shape s = [80; 80; 44; 25]%Z /\
    (forall x y z t,
        item s [x; y; z; t] = item f_img_data [x; y; z; 2 * t + 1]%Z) /\
    (forall t', (0 <= t' < 50)%Z -> Z.odd t' = true ->
                exists t, (0 <= t < 25)%Z /\ t' = (2 * t + 1)%Z).
Proof.
  intros Hs; unfold f_img_data_odd, getitem; rewrite Hs.
  cbn -[Z.add Z.mul slice_length].
  eexists; split; [reflexivity|].
  cbn -[Z.add Z.mul slice_length].
  split; [reflexivity|]. split.
  - intros x y z t; f_equal; entrywise; lia.
  - intros t' Ht Hodd; exists (t' / 2)%Z.
    pose proof (Z.div_mod t' 2 ltac:(lia)) as E.
    rewrite Zmod_odd, Hodd in E; lia.
Qed.

Lemma odd_timepoints_shape_witness :
  shape (ramp [80; 80; 44; 50]%Z) = [80; 80; 44; 50]%Z /\
  exists s,
    f_img_data_odd (ramp [80; 80; 44; 50]%Z) = Ok s /\
    shape s = [80; 80; 44; 25]%Z /\
    (forall x y z t,
        item s [x; y; z; t] =
        item (ramp [80; 80; 44; 50]%Z) [x; y; z; 2 * t + 1]%Z) /\
    (forall t', (0 <= t' < 50)%Z -> Z.odd t' = true ->
                exists t, (0 <= t < 25)%Z /\ t' = (2 * t + 1)%Z).
Proof.
  split; [reflexivity|].
  apply (odd_timepoints_shape (ramp [80; 80; 44; 50]%Z)); reflexivity.
Defined.

(** ** The affine cell as a statement *)

(** What a run of the cell that raises nothing leaves behind. *)
Lemma cell_57_ok (i j k : R) (st st' : state) :
  cell_57 i j k st = Ok st' ->
  exists a p,
    lookup st "A" = Ok a /\
    matmul_obj a (Arr1 [i; j; k; 1]) = Ok p /\
    st' = assign "xyz1" (S (length (heap st)))
            (mkstate ((heap st ++ [Arr1 [i; j; k; 1]]) ++ [p]) (names st)).
Proof.
  unfold cell_57.
  destruct (lookup st "A") as [a|e] eqn:Ea; simpl; [|discriminate].
  destruct (matmul_obj a (Arr1 [i; j; k; 1])) as [p|e] eqn:Ep; simpl;
    [|discriminate].
  intros E; injection E as <-; exists a, p.
  split; [reflexivity|]. split; [exact Ep|].
  now rewrite length_app, Nat.add_1_r.
Qed.

Lemma cell_57_result (i j k : R) (st : state) :
  fmap (fun st' => lookup st' "xyz1") (cell_57 i j k st) =
  fmap (fun p => Ok p)
       (bind (lookup st "A") (fun a => matmul_obj a (Arr1 [i; j; k; 1]))).
Proof.
  unfold cell_57.
  destruct (lookup st "A") as [a|e]; simpl; [|reflexivity].
  destruct (matmul_obj a (Arr1 [i; j; k; 1])) as [p|e]; simpl; [|reflexivity].
  unfold lookup, deref; simpl.
  now rewrite nth_error_app2, Nat.sub_diag by lia.
Qed.

(** C8: the affine cell is pure and deterministic.  In two states that
    bind [A] to equal objects, with equal coordinates, the cell yields equal
    results (equal products, or the same error); for a 2-D affine the result
    is the function [xyz1] of the affine and the coordinates; and a run
    changes no object that existed before (the affine among them), rebinds
    no name but [xyz1], and leaves the coordinate vector it built as it
    was. *)
Theorem affine_cell_pure (st1 st2 : state) (i j k : R) :
  lookup st1 "A" = lookup st2 "A" ->
  fmap (fun st' => lookup st' "xyz1") (cell_57 i j k st1) =
  fmap (fun st' => lookup st' "xyz1") (cell_57 i j k st2) /\
  (forall A, lookup st1 "A" = Ok (Arr2 A) ->
     fmap (fun st' => lookup st' "xyz1") (cell_57 i j k st1) =
     fmap (fun v => Ok (Arr1 v)) (xyz1 A [i; j; k])) /\
  (forall st', cell_57 i j k st1 = Ok st' ->
     (forall l o, deref st1 l = Some o -> deref st' l = Some o) /\
     (forall x, x <> "xyz1"%string -> names st' x = names st1 x) /\
     lookup st' "A" = lookup st1 "A" /\
     deref st' (length (heap st1)) = Some (Arr1 [i; j; k; 1])).
Proof.
  intros HA; split; [|split].
  - now rewrite !cell_57_result, HA.
  - intros A HA1; rewrite cell_57_result, HA1; simpl.
    unfold xyz1; simpl.
    destruct (matmul A [i; j; k; 1]); reflexivity.
  - intros st' Hrun.
    destruct (cell_57_ok i j k st1 st' Hrun) as (a & p & Ha & Hp & ->).
    assert (Hkeep : forall l o, deref st1 l = Some o ->
              deref (assign "xyz1" (S (length (heap st1)))
                       (mkstate ((heap st1 ++ [Arr1 [i; j; k; 1]]) ++ [p])
                                (names st1))) l = Some o).
    { intros l o Hl; unfold deref in *; simpl.
      assert (l < length (heap st1))%nat
        by (apply nth_error_Some; congruence).
      rewrite <- app_assoc, nth_error_app1; assumption. }
    split; [exact Hkeep|].
    split; [|split].
    + intros x Hx; unfold assign; cbn [names].
      destruct (String.eqb_spec "xyz1" x) as [E|_]; [now elim Hx|reflexivity].
    + unfold lookup in Ha |- *.
      change (names (assign "xyz1" (S (length (heap st1)))
                       (mkstate ((heap st1 ++ [Arr1 [i; j; k; 1]]) ++ [p])
                                (names st1))) "A")
        with (names st1 "A").
      destruct (names st1 "A") as [l|]; [|discriminate].
      destruct (deref st1 l) as [o|] eqn:El; [|discriminate].
      now rewrite (Hkeep l o El).
    + unfold deref; simpl.
      rewrite <- app_assoc, nth_error_app2, Nat.sub_diag by lia.
      reflexivity.
Qed.

(** Two states: the second has one more object and one more name. *)
Lemma affine_cell_pure_witness :
  let st1 := mkstate [Arr2 affine_ras]
               (fun x => if String.eqb x "A" then Some 0%nat else None) in
  let st2 := mkstate [Num 7; Arr2 affine_ras]
               (fun x => if String.eqb x "A" then Some 1%nat
                         else if String.eqb x "n" then Some 0%nat else None) in
  lookup st1 "A" = lookup st2 "A" /\
  (fmap (fun st' => lookup st' "xyz1") (cell_57 69 119 109 st1) =
   fmap (fun st' => lookup st' "xyz1") (cell_57 69 119 109 st2) /\
   (forall A, lookup st1 "A" = Ok (Arr2 A) ->
      fmap (fun st' => lookup st' "xyz1") (cell_57 69 119 109 st1) =
      fmap (fun v => Ok (Arr1 v)) (xyz1 A [69; 119; 109])) /\
   (forall st', cell_57 69 119 109 st1 = Ok st' ->
      (forall l o, deref st1 l = Some o -> deref st' l = Some o) /\
      (forall x, x <> "xyz1"%string -> names st' x = names st1 x) /\
      lookup st' "A" = lookup st1 "A" /\
      deref st' (length (heap st1)) = Some (Arr1 [69; 119; 109; 1]))).
Proof.
  intros st1 st2.
  assert (HA : lookup st1 "A" = lookup st2 "A") by reflexivity.
  split; [exact HA|].
  apply (affine_cell_pure st1 st2 69 119 109 HA).
Defined.

(** ** Slices stay inside the array *)

Lemma slice_indices_range (a b c : option Z) (n start stop step : Z) :
  (0 <= n)%Z ->
  slice_indices a b c n = Ok (start, stop, step) ->
  step <> 0%Z /\
  ((0 < step)%Z -> (0 <= start <= n)%Z /\ (0 <= stop <= n)%Z) /\
  ((step < 0)%Z -> (-1 <= start <= n - 1)%Z /\ (-1 <= stop <= n - 1)%Z).
Proof.
  intros Hn; unfold slice_indices.
  set (st := match c with Some s => s | None => 1%Z end).
  destruct (Z.eqb_spec st 0) as [|Hst]; [discriminate|].
  intros E; injection E as <- <- <-.
  split; [exact Hst|].
  destruct (Z.ltb_spec st 0); split; intros Hs; try lia;
    destruct a as [va|], b as [vb|];
    repeat match goal with
           | |- context [(?v <? 0)%Z] => destruct (Z.ltb_spec v 0)
           end; lia.
Qed.

Lemma slice_length_nonneg (a b st : Z) :
  st <> 0%Z -> (0 <= slice_length a b st)%Z.
Proof.
  intros Hst; unfold slice_length.
  destruct (Z.ltb_spec st 0).
  - destruct (Z.ltb_spec b a); [|lia].
    assert (0 <= (a - b - 1) / - st)%Z by (apply Z.div_pos; lia); lia.
  - destruct (Z.ltb_spec a b); [|lia].
    assert (0 <= (b - a - 1) / st)%Z by (apply Z.div_pos; lia); lia.
Qed.

(** The positions a slice selects are positions of the axis. *)
Lemma slice_item_in_bounds (a b c : option Z) (n start stop step t : Z) :
  (0 <= n)%Z ->
  slice_indices a b c n = Ok (start, stop, step) ->
  (0 <= t < slice_length start stop step)%Z ->
  (0 <= start + t * step < n)%Z.
Proof.
  intros Hn Hs Ht.
  destruct (slice_indices_range a b c n start stop step Hn Hs)
    as (Hst & Hpos & Hneg).
  unfold slice_length in Ht.
  destruct (Z.ltb_spec step 0) as [Hlt|Hge].
  - destruct (Hneg Hlt) as [Ha Hb].
    destruct (Z.ltb_spec stop start); [|lia].
    pose proof (Z.mul_div_le (start - stop - 1) (- step) ltac:(lia)).
    assert (t <= (start - stop - 1) / - step)%Z by lia.
    assert (t * - step <= - step * ((start - stop - 1) / - step))%Z.
    { rewrite (Z.mul_comm (- step)); apply Z.mul_le_mono_nonneg_r; lia. }
    nia.
  - assert (Hp : (0 < step)%Z) by lia.
    destruct (Hpos Hp) as [Ha Hb].
    destruct (Z.ltb_spec start stop); [|lia].
    pose proof (Z.mul_div_le (stop - start - 1) step Hp).
    assert (t <= (stop - start - 1) / step)%Z by lia.
    assert (t * step <= step * ((stop - start - 1) / step))%Z.
    { rewrite (Z.mul_comm step); apply Z.mul_le_mono_nonneg_r; lia. }
    nia.
Qed.

(** ** Basic indexing in general *)

Lemma getitem_aux_ok_inv (n : Z) (sh : list Z) (ix : list index)
      (s : list Z) (f : list Z -> list Z) :
  getitem_aux (n :: sh) ix = Ok (s, f) ->
  match ix with
  | [] =>
      exists s' f', getitem_aux sh [] = Ok (s', f') /\ s = n :: s' /\
        f = (fun idx => match idx with t :: r => t :: f' r | [] => [] end)
  | Int i :: ix' =>
      (- n <= i < n)%Z /\
      exists f', getitem_aux sh ix' = Ok (s, f') /\
        f = (fun idx => (if (i <? 0)%Z then (i + n)%Z else i) :: f' idx)
  | Slice a b c :: ix' =>
      exists start stop step s' f',
        slice_indices a b c n = Ok (start, stop, step) /\
        getitem_aux sh ix' = Ok (s', f') /\
        s = slice_length start stop step :: s' /\
        f = (fun idx => match idx with
                        | t :: r => (start + t * step)%Z :: f' r
                        | [] => []
                        end)
  end.
Proof.
  destruct ix as [|[i|a b c] ix']; cbn [getitem_aux].
  - destruct (getitem_aux sh []) as [[s' f']|e]; simpl; [|discriminate].
    intros E; injection E as <- <-; now exists s', f'.
  - destruct (Z.leb_spec (- n) i), (Z.ltb_spec i n); simpl;
      try discriminate.
    destruct (getitem_aux sh ix') as [[s' f']|e]; simpl; [|discriminate].
    intros E; injection E as <- <-; split; [lia|]; now exists f'.
  - destruct (slice_indices a b c n) as [[[start stop] step]|e]; simpl;
      [|discriminate].
    destruct (getitem_aux sh ix') as [[s' f']|e]; simpl; [|discriminate].
    intros E; injection E as <- <-; now exists start, stop, step, s', f'.
Qed.

(** Every integer of the index tuple removes one axis, every slice keeps
    one, and there are no more indices than axes. *)
Lemma getitem_aux_ndim (sh : list Z) :
  forall ix s f,
    getitem_aux sh ix = Ok (s, f) ->
    (length ix <= length sh)%nat /\
    (length s + count_int ix = length sh)%nat.
Proof.
  induction sh as [|n sh IH]; intros ix s f H.
  - destruct ix; [|discriminate]; injection H as <- _; simpl; lia.
  - apply getitem_aux_ok_inv in H.
    destruct ix as [|[i|a b c] ix'].
    + destruct H as (s' & f' & H & -> & _).
      destruct (IH _ _ _ H); simpl in *; lia.
    + destruct H as (_ & f' & H & _).
      destruct (IH _ _ _ H); simpl in *; lia.
    + destruct H as (start & stop & step & s' & f' & _ & H & -> & _).
      destruct (IH _ _ _ H); simpl in *; lia.
Qed.

(** Inside the result's shape, the index that is read is inside the array's
    shape. *)
Lemma getitem_aux_in_bounds (sh : list Z) :
  forall ix s f,
    nonneg sh ->
    getitem_aux sh ix = Ok (s, f) ->
    nonneg s /\ forall idx, in_bounds s idx -> in_bounds sh (f idx).
Proof.
  unfold nonneg, in_bounds.
  induction sh as [|n sh IH]; intros ix s f Hsh H.
  - destruct ix; [|discriminate]; injection H as <- <-.
    split; [constructor|]; intros idx _; constructor.
  - inversion Hsh as [|? ? Hn Hsh']; subst.
    apply getitem_aux_ok_inv in H.
    destruct ix as [|[i|a b c] ix'].
    + destruct H as (s' & f' & H & -> & ->).
      destruct (IH _ _ _ Hsh' H) as [Hs' Hf'].
      split; [now constructor|].
      intros idx Hidx; inversion Hidx; subst; constructor; auto.
    + destruct H as (Hi & f' & H & ->).
      destruct (IH _ _ _ Hsh' H) as [Hs' Hf'].
      split; [assumption|].
      intros idx Hidx; constructor; [|auto].
      destruct (Z.ltb_spec i 0); lia.
    + destruct H as (start & stop & step & s' & f' & Hsl & H & -> & ->).
      destruct (IH _ _ _ Hsh' H) as [Hs' Hf'].
      destruct (slice_indices_range a b c n start stop step Hn Hsl)
        as (Hst & _).
      split; [constructor; [now apply slice_length_nonneg|assumption]|].
      intros idx Hidx; inversion Hidx; subst; constructor; [|auto].
      now apply (slice_item_in_bounds a b c n start stop step).
Qed.

(** An array indexed by nothing is the array. *)
Lemma getitem_aux_nil (sh : list Z) :
  exists f, getitem_aux sh [] = Ok (sh, f) /\
            forall idx, length idx = length sh -> f idx = idx.
Proof.
  induction sh as [|n sh (f & E & Hf)].
  - exists (fun _ => []); split; [reflexivity|].
    now intros [|t idx].
  - cbn [getitem_aux]; rewrite E; simpl.
    eexists; split; [reflexivity|].
    intros [|t idx] Hl; [discriminate|]; simpl in *.
    f_equal; apply Hf; lia.
Qed.

Lemma in_range_true (n i : Z) :
  (0 <= i < n)%Z -> ((- n <=? i)%Z && (i <? n)%Z) = true.
Proof.
  intros H; apply andb_true_iff; split; [apply Z.leb_le | apply Z.ltb_lt]; lia.
Qed.

Lemma in_range_false (n i : Z) :
  (0 <= n <= i)%Z -> ((- n <=? i)%Z && (i <? n)%Z) = false.
Proof.
  intros H; apply andb_false_iff; right; apply Z.ltb_ge; lia.
Qed.

(** The three parts of a statement about a cell that raises. *)
Ltac index_error_case :=
  split;
  [ split; [intros _; (left; simpl; lia) || (right; simpl; lia) | reflexivity]
  | split; [intros ? E; now injection E | discriminate] ].

(** ** The middle slice, on any array *)

(** Cell 27 on an array of any shape: an [IndexError] exactly when the array
    has fewer than three axes or its first axis has at most 119 entries, and
    no other error; otherwise the first axis is removed, the others are kept
    (a fourth axis too), and the entry at an index tuple is the array's
    entry at 119 followed by that tuple. *)
Theorem mid_slice_x_index_error {T : Type} (img_data : ndarray T) :
  nonneg (shape img_data) ->
  (mid_slice_x img_data = Err IndexError <->
   (length (shape img_data) < 3)%nat \/
   (nth 0 (shape img_data) 0 <= 119)%Z) /\
  (forall e, mid_slice_x img_data = Err e -> e = IndexError) /\
  (forall s, mid_slice_x img_data = Ok s ->
     shape s = tl (shape img_data) /\
     forall idx, length idx = length (shape s) ->
                 item s idx = item img_data (119%Z :: idx)).
Proof.
  unfold mid_slice_x, getitem, nonneg.
  destruct (shape img_data) as [|n0 [|n1 [|n2 sh]]]; intros Hnn;
    try (simpl; index_error_case).
  change (Nat.ltb (length (n0 :: n1 :: n2 :: sh))
                  (length [Int 119; full; full])) with false.
  cbv iota.
  inversion Hnn as [|? ? H0 Hsh]; subst.
  inversion Hsh as [|? ? H1 Hsh']; subst.
  inversion Hsh' as [|? ? H2 Hsh'']; subst.
  cbn [getitem_aux nth length tl].
  destruct (Z.le_gt_cases n0 119) as [Hle|Hgt].
  { rewrite in_range_false by lia; simpl; index_error_case. }
  rewrite in_range_true by lia.
  destruct (getitem_aux_nil sh) as (f0 & E0 & Hf0).
  cbn -[Z.add Z.mul slice_length]; rewrite E0.
  cbn -[Z.add Z.mul slice_length].
  rewrite !slice_length_full by assumption.
  split; [split; [discriminate | intros [Hl|Hl]; simpl in Hl; lia]|].
  split; [discriminate|].
  intros s E; injection E as <-; cbn -[Z.add Z.mul].
  split; [reflexivity|].
  intros [|j [|k r]] Hl; simpl in Hl; try discriminate.
  destruct (Z.ltb_spec 119 0); [lia|].
  f_equal; f_equal; entrywise; try lia.
  apply Hf0; lia.
Qed.

(** ** The patch of cell 25 *)

Lemma slice_length_step1 (a b : Z) :
  (a <= b)%Z -> slice_length a b 1 = (b - a)%Z.
Proof.
  intros H; unfold slice_length; simpl.
  destruct (Z.ltb_spec a b); [rewrite Z.div_1_r|]; lia.
Qed.

Lemma Forall2_length_eq {X Y : Type} (P : X -> Y -> Prop) (l : list X)
      (m : list Y) :
  Forall2 P l m -> length l = length m.
Proof. induction 1; simpl; congruence. Qed.

(** Cell 25 on any array of at least three axes: slices never raise.  Each
    of the three axes keeps the part of [118:121] (or [108:111]) that exists,
    between 0 and 3 entries; the patch is 3x3x3 when the axes are long
    enough; and its entry at (a, b, c) is the array's entry at
    (118+a, 118+b, 108+c). *)
Theorem mid_vox_clamped {T : Type} (img_data : ndarray T)
        (n0 n1 n2 : Z) (rest : list Z) :
  shape img_data = n0 :: n1 :: n2 :: rest ->
  nonneg (shape img_data) ->
  exists s,
    mid_vox img_data = Ok s /\
    shape s = (Z.min 121 n0 - Z.min 118 n0)%Z ::
              (Z.min 121 n1 - Z.min 118 n1)%Z ::
              (Z.min 111 n2 - Z.min 108 n2)%Z :: rest /\
    (forall n, In n (firstn 3 (shape s)) -> (0 <= n <= 3)%Z) /\
    ((121 <= n0)%Z -> (121 <= n1)%Z -> (111 <= n2)%Z ->
     shape s = 3%Z :: 3%Z :: 3%Z :: rest) /\
    (forall a b c r,
        in_bounds (shape s) (a :: b :: c :: r) ->
        item s (a :: b :: c :: r) =
        item img_data ((118 + a) :: (118 + b) :: (108 + c) :: r)%Z).
Proof.
  intros Hs Hnn; unfold mid_vox, getitem; rewrite Hs in *.
  unfold nonneg in Hnn.
  inversion Hnn as [|? ? H0 Hnn1]; subst.
  inversion Hnn1 as [|? ? H1 Hnn2]; subst.
  inversion Hnn2 as [|? ? H2 Hnn3]; subst.
  destruct (getitem_aux_nil rest) as (f0 & E0 & Hf0).
  cbn -[Z.add Z.mul Z.min slice_length]; rewrite E0.
  cbn -[Z.add Z.mul Z.min slice_length].
  eexists; split; [reflexivity|].
  cbn -[Z.add Z.mul Z.min slice_length].
  rewrite !slice_length_step1 by lia.
  split; [reflexivity|].
  split; [|split].
  - intros n [<-|[<-|[<-|[]]]]; lia.
  - intros; f_equal; [|f_equal; [|f_equal]]; lia.
  - intros a b c r Hin.
    inversion Hin as [|? ? ? ? Ha Hin1]; subst.
    inversion Hin1 as [|? ? ? ? Hb Hin2]; subst.
    inversion Hin2 as [|? ? ? ? Hc Hin3]; subst.
    f_equal; entrywise; try lia.
    apply Hf0; symmetry; exact (Forall2_length_eq _ _ _ Hin3).
Qed.

Lemma mid_vox_clamped_witness :
  shape (ramp [240; 240; 109]%Z) = [240; 240; 109]%Z /\
  nonneg (shape (ramp [240; 240; 109]%Z)) /\
  exists s,
    mid_vox (ramp [240; 240; 109]%Z) = Ok s /\
    shape s = [Z.min 121 240 - Z.min 118 240; Z.min 121 240 - Z.min 118 240;
               Z.min 111 109 - Z.min 108 109]%Z /\
    (forall n, In n (firstn 3 (shape s)) -> (0 <= n <= 3)%Z) /\
    ((121 <= 240)%Z -> (121 <= 240)%Z -> (111 <= 109)%Z ->
     shape s = [3; 3; 3]%Z) /\
    (forall a b c r,
        in_bounds (shape s) (a :: b :: c :: r) ->
        item s (a :: b :: c :: r) =
        item (ramp [240; 240; 109]%Z)
             ((118 + a) :: (118 + b) :: (108 + c) :: r)%Z).
Proof.
  assert (Hnn : nonneg (shape (ramp [240; 240; 109]%Z))).
  { unfold nonneg; simpl; repeat constructor; lia. }
  split; [reflexivity|]. split; [exact Hnn|].
  apply (mid_vox_clamped (ramp [240; 240; 109]%Z) 240 240 109 []
                         eq_refl Hnn).
Defined.

Lemma mid_slice_x_index_error_witness :
  nonneg (shape (ramp [100; 240; 220]%Z)) /\
  (mid_slice_x (ramp [100; 240; 220]%Z) = Err IndexError <->
   (length (shape (ramp [100; 240; 220]%Z)) < 3)%nat \/
   (nth 0 (shape (ramp [100; 240; 220]%Z)) 0 <= 119)%Z) /\
  (forall e, mid_slice_x (ramp [100; 240; 220]%Z) = Err e -> e = IndexError) /\
  (forall s, mid_slice_x (ramp [100; 240; 220]%Z) = Ok s ->
     shape s = tl (shape (ramp [100; 240; 220]%Z)) /\
     forall idx, length idx = length (shape s) ->
                 item s idx = item (ramp [100; 240; 220]%Z) (119%Z :: idx)).
Proof.
  assert (Hnn : nonneg (shape (ramp [100; 240; 220]%Z))).
  { unfold nonneg; simpl; repeat constructor; lia. }
  split; [exact Hnn|].
  apply (mid_slice_x_index_error (ramp [100; 240; 220]%Z) Hnn).
Defined.

(** ** The loop of cell 43 *)

Lemma mapM_ok {X Y : Type} (g : X -> result Y) (P : X -> Y -> Prop)
      (l : list X) :
  (forall x, In x l -> exists y, g x = Ok y /\ P x y) ->
  exists ys, mapM g l = Ok ys /\ Forall2 P l ys.
Proof.
  induction l as [|x l IH]; intros H.
  - exists []; split; [reflexivity|constructor].
  - destruct (H x (or_introl eq_refl)) as (y & Ey & Py).
    destruct IH as (ys & Eys & Pys); [intros; apply H; now right|].
    exists (y :: ys); simpl; rewrite Ey; simpl; rewrite Eys; simpl.
    split; [reflexivity|now constructor].
Qed.

Lemma mapM_err {X Y : Type} (g : X -> result Y) (e : error)
      (l1 l2 : list X) (x : X) :
  (forall x', In x' l1 -> exists y, g x' = Ok y) ->
  g x = Err e ->
  mapM g (l1 ++ x :: l2) = Err e.
Proof.
  induction l1 as [|x1 l1 IH]; intros H Hx; simpl.
  - now rewrite Hx.
  - destruct (H x1 (or_introl eq_refl)) as (y & ->); simpl.
    rewrite IH; [reflexivity| |exact Hx].
    intros; apply H; now right.
Qed.

Lemma Forall2_nth_error_r {X Y : Type} (P : X -> Y -> Prop) (l : list X)
      (m : list Y) :
  Forall2 P l m ->
  forall t y, nth_error m t = Some y ->
              exists x, nth_error l t = Some x /\ P x y.
Proof.
  induction 1 as [|x y l m Hxy _ IH]; intros [|t] y' Ht; simpl in *;
    try discriminate.
  - injection Ht as <-; now exists x.
  - now apply IH.
Qed.

(** One pass of the loop body, before [.T]. *)
Lemma frame_ok {T : Type} (f_img_data : ndarray T) (n0 n1 n2 n3 t : Z) :
  shape f_img_data = [n0; n1; n2; n3] ->
  nonneg (shape f_img_data) ->
  (39 < n0)%Z -> (0 <= t < n3)%Z ->
  exists s,
    getitem f_img_data [Int 39; full; full; Int t] = Ok s /\
    shape s = [n1; n2] /\
    forall j k, item s [j; k] = item f_img_data [39; j; k; t]%Z.
Proof.
  intros Hs Hnn H0 Ht; unfold getitem; rewrite Hs in *.
  unfold nonneg in Hnn.
  inversion Hnn as [|? ? _ Hnn1]; subst.
  inversion Hnn1 as [|? ? H1 Hnn2]; subst.
  inversion Hnn2 as [|? ? H2 _]; subst.
  cbn -[Z.add Z.mul slice_length].
  rewrite (in_range_true n0 39), (in_range_true n3 t) by lia.
  cbn -[Z.add Z.mul slice_length].
  eexists; split; [reflexivity|]; cbn -[Z.add Z.mul slice_length].
  rewrite !slice_length_full by assumption; split; [reflexivity|].
  intros j k; destruct (Z.ltb_spec t 0); [lia|].
  f_equal; entrywise; lia.
Qed.

Lemma frame_err {T : Type} (f_img_data : ndarray T) (n0 n1 n2 n3 t : Z) :
  shape f_img_data = [n0; n1; n2; n3] ->
  nonneg (shape f_img_data) ->
  (n0 <= 39)%Z \/ (n3 <= t)%Z ->
  getitem f_img_data [Int 39; full; full; Int t] = Err IndexError.
Proof.
  intros Hs Hnn H; unfold getitem; rewrite Hs in *.
  unfold nonneg in Hnn.
  inversion Hnn as [|? ? H0 Hnn1]; subst.
  inversion Hnn1 as [|? ? H1 Hnn2]; subst.
  inversion Hnn2 as [|? ? H2 Hnn3]; subst.
  inversion Hnn3 as [|? ? H3 _]; subst.
  cbn -[Z.add Z.mul slice_length].
  destruct (Z.le_gt_cases n0 39) as [Hle|Hgt].
  - now rewrite (in_range_false n0 39) by lia.
  - rewrite (in_range_true n0 39) by lia.
    cbn -[Z.add Z.mul slice_length].
    now rewrite (in_range_false n3 t) by lia.
Qed.

(** The images of the loop when every pass is inside the array. *)
Lemma cell_43_images {T : Type} (f_img_data : ndarray T) (n0 n1 n2 n3 : Z) :
  shape f_img_data = [n0; n1; n2; n3] ->
  nonneg (shape f_img_data) ->
  (39 < n0)%Z -> (20 <= n3)%Z ->
  exists imgs,
    cell_43 f_img_data = Ok imgs /\
    Forall2 (fun t img =>
               shape img = [n2; n1] /\
               forall k j, item img [k; j] =
                           item f_img_data [39; j; k; Z.of_nat t]%Z)
            (seq 0 20) imgs.
Proof.
  intros Hs Hnn H0 H3; unfold cell_43.
  apply mapM_ok; intros t Ht; apply in_seq in Ht.
  destruct (frame_ok f_img_data n0 n1 n2 n3 (Z.of_nat t) Hs Hnn H0)
    as (s & -> & Hsh & Hit); [lia|].
  eexists; split; [reflexivity|]; unfold transpose; simpl.
  rewrite Hsh; split; [reflexivity|].
  intros k j; apply Hit.
Qed.

(** Cell 43 on a 4-D array: the 20 passes raise an [IndexError] exactly
    when the first axis has at most 39 entries or there are fewer than 20
    timepoints; otherwise there are 20 images, the image of pass [t] has the
    second and third axes swapped, and its entry at (k, j) is the array's
    entry at (39, j, k, t). *)
Theorem cell_43_needs_20_timepoints {T : Type} (f_img_data : ndarray T)
        (n0 n1 n2 n3 : Z) :
  shape f_img_data = [n0; n1; n2; n3] ->
  nonneg (shape f_img_data) ->
  (cell_43 f_img_data = Err IndexError <-> (n0 <= 39)%Z \/ (n3 < 20)%Z) /\
  (forall e, cell_43 f_img_data = Err e -> e = IndexError) /\
  (forall imgs, cell_43 f_img_data = Ok imgs ->
     length imgs = 20%nat /\
     forall t img, nth_error imgs t = Some img ->
       shape img = [n2; n1] /\
       forall k j, item img [k; j] =
                   item f_img_data [39; j; k; Z.of_nat t]%Z).
Proof.
  intros Hs Hnn.
  assert (H3nn : (0 <= n3)%Z).
  { unfold nonneg in Hnn; rewrite Hs in Hnn.
    repeat match goal with
           | H : Forall _ (_ :: _) |- _ => inversion H; subst; clear H
           end; assumption. }
  destruct (Z.le_gt_cases n0 39) as [H0|H0];
    [|destruct (Z.lt_ge_cases n3 20) as [H3|H3]].
  - assert (E : cell_43 f_img_data = Err IndexError).
    { unfold cell_43; apply (mapM_err _ _ [] _ 0%nat); [intros ? []|].
      now rewrite (frame_err f_img_data n0 n1 n2 n3 _ Hs Hnn) by lia. }
    rewrite E; split; [split; [intros _; now left | reflexivity]|].
    split; [intros e Ee; now injection Ee | discriminate].
  - assert (E : cell_43 f_img_data = Err IndexError).
    { unfold cell_43.
      replace (seq 0 (5 * 4))
        with (seq 0 (Z.to_nat n3) ++
              Z.to_nat n3 :: seq (S (Z.to_nat n3)) (19 - Z.to_nat n3)).
      - apply mapM_err.
        + intros t Ht; apply in_seq in Ht.
          destruct (frame_ok f_img_data n0 n1 n2 n3 (Z.of_nat t) Hs Hnn)
            as (s & -> & _); [lia|lia|].
          eexists; reflexivity.
        + now rewrite (frame_err f_img_data n0 n1 n2 n3 _ Hs Hnn) by lia.
      - change (Z.to_nat n3 :: seq (S (Z.to_nat n3)) (19 - Z.to_nat n3))
          with (seq (0 + Z.to_nat n3) (S (19 - Z.to_nat n3))).
        rewrite <- seq_app; f_equal; lia. }
    rewrite E; split; [split; [intros _; now right | reflexivity]|].
    split; [intros e Ee; now injection Ee | discriminate].
  - destruct (cell_43_images f_img_data n0 n1 n2 n3 Hs Hnn)
      as (imgs & E & Himgs); [lia|lia|].
    rewrite E; split; [split; [discriminate | lia]|].
    split; [discriminate|].
    intros imgs' E'; injection E' as <-.
    split.
    + now rewrite <- (Forall2_length_eq _ _ _ Himgs), length_seq.
    + intros t img Ht.
      destruct (Forall2_nth_error_r _ _ _ Himgs t img Ht) as (t' & Ht' & P).
      assert (t' = t); [|now subst].
      assert (Hlt : (t < length (seq 0 20))%nat)
        by (apply nth_error_Some; congruence).
      rewrite length_seq in Hlt.
      rewrite nth_error_nth' with (d := 0%nat) in Ht'
        by now rewrite length_seq.
      rewrite seq_nth in Ht' by exact Hlt.
      now injection Ht'.
Qed.

Lemma cell_43_needs_20_timepoints_witness :
  shape (ramp [80; 80; 44; 12]%Z) = [80; 80; 44; 12]%Z /\
  nonneg (shape (ramp [80; 80; 44; 12]%Z)) /\
  (cell_43 (ramp [80; 80; 44; 12]%Z) = Err IndexError <->
   (80 <= 39)%Z \/ (12 < 20)%Z) /\
  (forall e, cell_43 (ramp [80; 80; 44; 12]%Z) = Err e -> e = IndexError) /\
  (forall imgs, cell_43 (ramp [80; 80; 44; 12]%Z) = Ok imgs ->
     length imgs = 20%nat /\
     forall t img, nth_error imgs t = Some img ->
       shape img = [44; 80]%Z /\
       forall k j, item img [k; j] =
                   item (ramp [80; 80; 44; 12]%Z) [39; j; k; Z.of_nat t]%Z).
Proof.
  assert (Hnn : nonneg (shape (ramp [80; 80; 44; 12]%Z))).
  { unfold nonneg; simpl; repeat constructor; lia. }
  split; [reflexivity|]. split; [exact Hnn|].
  apply (cell_43_needs_20_timepoints (ramp [80; 80; 44; 12]%Z) 80 80 44 12
                                     eq_refl Hnn).
Defined.

(** ** The voxel of the red box *)

Lemma nth_error_seq_inv (n t t' : nat) :
  nth_error (seq 0 n) t = Some t' -> t' = t.
Proof.
  intros H.
  assert (Hlt : (t < length (seq 0 n))%nat)
    by (apply nth_error_Some; congruence).
  rewrite length_seq in Hlt.
  rewrite nth_error_nth' with (d := 0%nat) in H by now rewrite length_seq.
  rewrite seq_nth in H by exact Hlt.
  now injection H.
Qed.

(** Cells 37 to 43 read one voxel in four ways.  On a 4-D array that holds
    the voxel (39, 39, 21) and at least 20 timepoints, the time series of
    cell 41 has one entry per timepoint; its entry [t] is the entry
    (21, 39) of the image that pass [t] of the loop shows, its first entry
    is the entry (39, 21) of the slice of cell 39 and the middle entry of
    the patch of cell 37. *)
Theorem time_series_in_every_frame {T : Type} (f_img_data : ndarray T)
        (n0 n1 n2 n3 : Z) :
  shape f_img_data = [n0; n1; n2; n3] ->
  nonneg (shape f_img_data) ->
  (39 < n0)%Z -> (39 < n1)%Z -> (21 < n2)%Z -> (20 <= n3)%Z ->
  exists ts imgs m p,
    mid_vox_ts f_img_data = Ok ts /\
    cell_43 f_img_data = Ok imgs /\
    mid_slice_x_fmri f_img_data = Ok m /\
    cell_37 f_img_data = Ok p /\
    shape ts = [n3] /\
    (forall t, item ts [t] = item f_img_data [39; 39; 21; t]%Z) /\
    (forall t img, nth_error imgs t = Some img ->
                   item img [21; 39]%Z = item ts [Z.of_nat t]) /\
    item m [39; 21]%Z = item ts [0%Z] /\
    item p [1; 1; 1]%Z = item ts [0%Z].
Proof.
  intros Hs Hnn H0 H1 H2 H3.
  destruct (cell_43_images f_img_data n0 n1 n2 n3 Hs Hnn H0 H3)
    as (imgs & Eimgs & Himgs).
  destruct (frame_ok f_img_data n0 n1 n2 n3 0 Hs Hnn H0)
    as (m & Em & _ & Hm); [lia|].
  assert (H3nn : (0 <= n3)%Z) by lia.
  unfold mid_slice_x_fmri; rewrite Em, Eimgs.
  unfold mid_vox_ts, cell_37, getitem; rewrite Hs.
  cbn -[Z.add Z.mul Z.min slice_length].
  rewrite (in_range_true n0 39), (in_range_true n1 39),
          (in_range_true n2 21), (in_range_true n3 0) by lia.
  cbn -[Z.add Z.mul Z.min slice_length].
  eexists; exists imgs, m; eexists.
  do 4 (split; [reflexivity|]).
  cbn -[Z.add Z.mul Z.min slice_length].
  rewrite slice_length_full by assumption.
  split; [reflexivity|].
  split; [intros t; f_equal; entrywise; lia|].
  split.
  - intros t img Ht.
    destruct (Forall2_nth_error_r _ _ _ Himgs t img Ht) as (t' & Ht' & _ & P).
    apply nth_error_seq_inv in Ht'; subst t'.
    rewrite P; f_equal; entrywise; lia.
  - split; [rewrite Hm; f_equal; entrywise; lia|].
    f_equal; entrywise; lia.
Qed.

Lemma time_series_in_every_frame_witness :
  shape (ramp [80; 80; 44; 50]%Z) = [80; 80; 44; 50]%Z /\
  nonneg (shape (ramp [80; 80; 44; 50]%Z)) /\
  (39 < 80)%Z /\ (39 < 80)%Z /\ (21 < 44)%Z /\ (20 <= 50)%Z /\
  exists ts imgs m p,
    mid_vox_ts (ramp [80; 80; 44; 50]%Z) = Ok ts /\
    cell_43 (ramp [80; 80; 44; 50]%Z) = Ok imgs /\
    mid_slice_x_fmri (ramp [80; 80; 44; 50]%Z) = Ok m /\
    cell_37 (ramp [80; 80; 44; 50]%Z) = Ok p /\
    shape ts = [50%Z] /\
    (forall t, item ts [t] =
               item (ramp [80; 80; 44; 50]%Z) [39; 39; 21; t]%Z) /\
    (forall t img, nth_error imgs t = Some img ->
                   item img [21; 39]%Z = item ts [Z.of_nat t]) /\
    item m [39; 21]%Z = item ts [0%Z] /\
    item p [1; 1; 1]%Z = item ts [0%Z].
Proof.
  assert (Hnn : nonneg (shape (ramp [80; 80; 44; 50]%Z))).
  { unfold nonneg; simpl; repeat constructor; lia. }
  split; [reflexivity|]. split; [exact Hnn|].
  do 4 (split; [lia|]).
  apply (time_series_in_every_frame (ramp [80; 80; 44; 50]%Z) 80 80 44 50
           eq_refl Hnn); lia.
Defined.

(** ** The transposed slice *)

(** Cell 29: for a 3-D array whose first axis holds index 119,
    [mid_slice_x.T] has the two remaining axes in reverse order, its entry
    at (k, j) is the array's entry at (119, j, k), and transposing it again
    gives [mid_slice_x] back. *)
Theorem mid_slice_x_transposed {T : Type} (img_data : ndarray T)
        (n0 n1 n2 : Z) :
  shape img_data = [n0; n1; n2] ->
  nonneg (shape img_data) ->
  (119 < n0)%Z ->
  exists s m,
    mid_slice_x_T img_data = Ok s /\
    mid_slice_x img_data = Ok m /\
    shape s = [n2; n1] /\
    (forall k j, item s [k; j] = item img_data [119; j; k]%Z) /\
    shape (transpose s) = shape m /\
    (forall idx, item (transpose s) idx = item m idx).
Proof.
  intros Hs Hnn H0.
  assert (H12 : (0 <= n1)%Z /\ (0 <= n2)%Z).
  { unfold nonneg in Hnn; rewrite Hs in Hnn.
    repeat match goal with
           | H : Forall _ (_ :: _) |- _ => inversion H; subst; clear H
           end; now split. }
  destruct H12 as [H1 H2].
  destruct (getitem_int_axis0 img_data n0 n1 n2 119 Hs H1 H2)
    as (m & Em & Hm & Hit); [lia|].
  unfold mid_slice_x_T, mid_slice_x; rewrite Em; simpl.
  exists (transpose m), m.
  split; [reflexivity|]. split; [reflexivity|].
  unfold transpose; simpl; rewrite Hm; simpl.
  split; [reflexivity|]. split; [intros k j; apply Hit|].
  split; [reflexivity|].
  intros idx; now rewrite rev_involutive.
Qed.

Lemma mid_slice_x_transposed_witness :
  shape (ramp [240; 240; 220]%Z) = [240; 240; 220]%Z /\
  nonneg (shape (ramp [240; 240; 220]%Z)) /\
  (119 < 240)%Z /\
  exists s m,
    mid_slice_x_T (ramp [240; 240; 220]%Z) = Ok s /\
    mid_slice_x (ramp [240; 240; 220]%Z) = Ok m /\
    shape s = [220; 240]%Z /\
    (forall k j, item s [k; j] =
                 item (ramp [240; 240; 220]%Z) [119; j; k]%Z) /\
    shape (transpose s) = shape m /\
    (forall idx, item (transpose s) idx = item m idx).
Proof.
  assert (Hnn : nonneg (shape (ramp [240; 240; 220]%Z))).
  { unfold nonneg; simpl; repeat constructor; lia. }
  split; [reflexivity|]. split; [exact Hnn|]. split; [lia|].
  apply (mid_slice_x_transposed (ramp [240; 240; 220]%Z) 240 240 220
           eq_refl Hnn); lia.
Defined.

(** ** What basic indexing keeps and never does *)

(** On every indexing expression of the notebook that returns: there are
    no more indices than the array has axes, and the result has one axis
    fewer for each integer of the index tuple. *)
Theorem getitem_ndim {T : Type} (a b : ndarray T) (ix : list index) :
  getitem a ix = Ok b ->
  (length ix <= length (shape a))%nat /\
  (length (shape b) + count_int ix = length (shape a))%nat.
Proof.
  unfold getitem; intros H.
  destruct (Nat.ltb (length (shape a)) (length ix)); [discriminate|].
  destruct (getitem_aux (shape a) ix) as [[s f]|e] eqn:E; [|discriminate].
  injection H as <-; simpl.
  exact (getitem_aux_ndim (shape a) ix s f E).
Qed.

Lemma getitem_ndim_witness :
  getitem (ramp [80; 80; 44; 50]%Z) [Int 39; Int 39; Int 21; full] =
  Ok (mk [50%Z]
         (fun idx => item (ramp [80; 80; 44; 50]%Z)
                          (39 :: 39 :: 21 ::
                           match idx with
                           | t :: _ => [0 + t * 1]
                           | [] => []
                           end)%Z)) /\
  (length [Int 39; Int 39; Int 21; full] <= 4)%nat /\
  (1 + count_int [Int 39; Int 39; Int 21; full] = 4)%nat.
Proof.
  assert (E : getitem (ramp [80; 80; 44; 50]%Z)
                      [Int 39; Int 39; Int 21; full] =
              Ok (mk [50%Z]
                     (fun idx => item (ramp [80; 80; 44; 50]%Z)
                                      (39 :: 39 :: 21 ::
                                       match idx with
                                       | t :: _ => [0 + t * 1]
                                       | [] => []
                                       end)%Z))) by reflexivity.
  split; [exact E|].
  exact (getitem_ndim _ _ _ E).
Defined.

(** Basic indexing never reads outside the array: when it returns, the
    result's shape has no negative entry, and every index tuple inside the
    result's shape is read from an index tuple inside the array's shape. *)
Theorem getitem_reads_inside {T : Type} (a b : ndarray T)
        (ix : list index) :
  nonneg (shape a) ->
  getitem a ix = Ok b ->
  nonneg (shape b) /\
  exists f,
    (forall idx, item b idx = item a (f idx)) /\
    (forall idx, in_bounds (shape b) idx -> in_bounds (shape a) (f idx)).
Proof.
  unfold getitem; intros Hnn H.
  destruct (Nat.ltb (length (shape a)) (length ix)); [discriminate|].
  destruct (getitem_aux (shape a) ix) as [[s f]|e] eqn:E; [|discriminate].
  injection H as <-; simpl.
  destruct (getitem_aux_in_bounds (shape a) ix s f Hnn E) as [Hs Hf].
  split; [exact Hs|].
  exists f; split; [reflexivity|exact Hf].
Qed.

Lemma getitem_reads_inside_witness :
  nonneg (shape (ramp [80; 80; 44; 50]%Z)) /\
  exists b,
    f_img_data_odd (ramp [80; 80; 44; 50]%Z) = Ok b /\
    nonneg (shape b) /\
    exists f,
      (forall idx, item b idx = item (ramp [80; 80; 44; 50]%Z) (f idx)) /\
      (forall idx, in_bounds (shape b) idx ->
                   in_bounds (shape (ramp [80; 80; 44; 50]%Z)) (f idx)).
Proof.
  assert (Hnn : nonneg (shape (ramp [80; 80; 44; 50]%Z))).
  { unfold nonneg; simpl; repeat constructor; lia. }
  split; [exact Hnn|].
  destruct (f_img_data_odd (ramp [80; 80; 44; 50]%Z)) as [b|e] eqn:E;
    [|discriminate E].
  exists b; split; [reflexivity|].
  exact (getitem_reads_inside _ b _ Hnn E).
Defined.

(** ** The columns of the affine *)

Lemma map_ext_Forall {X Y : Type} (P : X -> Prop) (g h : X -> Y)
      (l : list X) :
  Forall P l -> (forall x, P x -> g x = h x) -> map g l = map h l.
Proof.
  intros HP Hgh; induction HP as [|x l Hx _ IH]; simpl; [reflexivity|].
  now rewrite IH, (Hgh x Hx).
Qed.

Lemma xyz1_4cols (A : ndarray2) (i j k : R) :
  ncols A = 4%nat ->
  xyz1 A [i; j; k] = Ok (map (fun r => dot r [i; j; k; 1]) (rows A)).
Proof.
  intros Hc; unfold xyz1, matmul; now rewrite Hc.
Qed.

(** Cell 57 at the first voxel: for an affine of four columns, whatever the
    number of rows, the product at voxel (0, 0, 0) is the affine's last
    column. *)
Theorem origin_is_last_column (A : ndarray2) :
  wf2 A -> ncols A = 4%nat ->
  xyz1 A [0; 0; 0] = Ok (column 3 A).
Proof.
  intros [_ Hrows] Hc; rewrite (xyz1_4cols A 0 0 0 Hc); unfold column.
  f_equal; apply (map_ext_Forall _ _ _ _ Hrows).
  intros r Hr; rewrite Hc in Hr.
  destruct (length_4 r Hr) as (a & b & c & d & ->); simpl; ring.
Qed.

Lemma origin_is_last_column_witness :
  wf2 affine_ras /\ ncols affine_ras = 4%nat /\
  xyz1 affine_ras [0; 0; 0] = Ok (column 3 affine_ras).
Proof.
  assert (Hwf : wf2 affine_ras) by (split; repeat constructor).
  split; [exact Hwf|]. split; [reflexivity|].
  exact (origin_is_last_column affine_ras Hwf eq_refl).
Defined.

(** ** The guard of cell 61 *)

(** Cell 61 only counts entries.  For an affine whose columns fit the
    coordinate vector: the untrimmed product passes the guard exactly when
    the affine has three rows, the product cut to three entries exactly when
    it has at least three; so for a 4x4 affine the product itself is
    rejected and the trimmed one accepted, and the guard raises nothing but
    its [ValueError]. *)
Theorem guard_counts_rows (A : ndarray2) (ijk : list R) :
  wf2 A -> ncols A = S (length ijk) ->
  (bind (xyz1 A ijk) cell_61_guard = Ok tt <-> nrows A = 3%nat) /\
  (bind (voxel_to_physical A ijk) cell_61_guard = Ok tt <->
   (3 <= nrows A)%nat) /\
  (nrows A = 4%nat ->
   bind (xyz1 A ijk) cell_61_guard = Err ValueError /\
   bind (voxel_to_physical A ijk) cell_61_guard = Ok tt) /\
  (forall e, bind (voxel_to_physical A ijk) cell_61_guard = Err e ->
             e = ValueError).
Proof.
  intros [Hlen _] Hc.
  destruct (xyz1_cases A ijk) as [[_ E]|[Hn _]]; [|contradiction].
  unfold voxel_to_physical, fmap; rewrite E; cbn [bind].
  unfold cell_61_guard, upto.
  rewrite length_firstn, length_map, Hlen.
  split; [|split; [|split]].
  - destruct (Nat.eqb_spec (nrows A) 3); simpl; split;
      congruence || discriminate.
  - destruct (Nat.eqb_spec (Nat.min 3 (nrows A)) 3); simpl; split;
      try discriminate; try reflexivity; lia.
  - intros ->; split; reflexivity.
  - destruct (Nat.eqb (Nat.min 3 (nrows A)) 3); simpl;
      [discriminate | intros e Ee; now injection Ee].
Qed.

Lemma guard_counts_rows_witness :
  wf2 affine_ras /\ ncols affine_ras = S (length [69; 119; 109]) /\
  (bind (xyz1 affine_ras [69; 119; 109]) cell_61_guard = Ok tt <->
   nrows affine_ras = 3%nat) /\
  (bind (voxel_to_physical affine_ras [69; 119; 109]) cell_61_guard = Ok tt <->
   (3 <= nrows affine_ras)%nat) /\
  (nrows affine_ras = 4%nat ->
   bind (xyz1 affine_ras [69; 119; 109]) cell_61_guard = Err ValueError /\
   bind (voxel_to_physical affine_ras [69; 119; 109]) cell_61_guard = Ok tt) /\
  (forall e,
      bind (voxel_to_physical affine_ras [69; 119; 109]) cell_61_guard =
      Err e -> e = ValueError).
Proof.
  assert (Hwf : wf2 affine_ras) by (split; repeat constructor).
  split; [exact Hwf|]. split; [reflexivity|].
  exact (guard_counts_rows affine_ras [69; 119; 109] Hwf eq_refl).
Defined.

(** ** Running the affine cell again *)

Lemma cell_57_keeps_A (i j k : R) (st st' : state) :
  cell_57 i j k st = Ok st' -> lookup st' "A" = lookup st "A".
Proof.
  intros Hrun.
  destruct (cell_57_ok i j k st st' Hrun) as (a & p & Ha & _ & ->).
  unfold lookup in Ha |- *.
  change (names (assign "xyz1" (S (length (heap st)))
                   (mkstate ((heap st ++ [Arr1 [i; j; k; 1]]) ++ [p])
                            (names st))) "A")
    with (names st "A").
  destruct (names st "A") as [l|]; [|discriminate].
  unfold deref in *; simpl.
  destruct (nth_error (heap st) l) as [o|] eqn:El; [|discriminate].
  assert (l < length (heap st))%nat by (apply nth_error_Some; congruence).
  now rewrite <- app_assoc, nth_error_app1, El.
Qed.

(** Cell 57 run twice, with any two voxels: after a first run that raised
    nothing, the second run raises nothing either, and [xyz1] is then bound
    to the product for the second voxel, as if the first run had not
    happened; the affine is still what it was. *)
Theorem cell_57_rerun (st st1 : state) (i j k i' j' k' : R) :
  cell_57 i j k st = Ok st1 ->
  fmap (fun st' => lookup st' "xyz1") (cell_57 i' j' k' st1) =
  fmap (fun st' => lookup st' "xyz1") (cell_57 i' j' k' st) /\
  (forall A, lookup st "A" = Ok (Arr2 A) ->
     exists st2 v,
       cell_57 i' j' k' st1 = Ok st2 /\
       xyz1 A [i'; j'; k'] = Ok v /\
       lookup st2 "xyz1" = Ok (Arr1 v) /\
       lookup st2 "A" = Ok (Arr2 A)).
Proof.
  intros Hrun.
  pose proof (cell_57_keeps_A i j k st st1 Hrun) as HA.
  split; [now rewrite !cell_57_result, HA|].
  intros A EA.
  destruct (cell_57_ok i j k st st1 Hrun) as (a & p & Ha & Hp & _).
  rewrite EA in Ha; injection Ha as <-.
  assert (Hv : exists v, xyz1 A [i'; j'; k'] = Ok v).
  { cbn [matmul_obj] in Hp; unfold fmap, matmul in Hp.
    unfold xyz1, matmul; simpl in Hp |- *.
    destruct (Nat.eqb (ncols A) 4);
      [eexists; reflexivity | discriminate Hp]. }
  destruct Hv as (v & Hv).
  pose proof (cell_57_result i' j' k' st1) as Hres.
  rewrite HA, EA in Hres; simpl in Hres.
  change (matmul A [i'; j'; k'; 1]) with (xyz1 A [i'; j'; k']) in Hres.
  rewrite Hv in Hres; simpl in Hres.
  destruct (cell_57 i' j' k' st1) as [st2|e] eqn:E2; [|discriminate].
  simpl in Hres; injection Hres as Hres.
  exists st2, v; repeat split; try assumption.
  now rewrite (cell_57_keeps_A i' j' k' st1 st2 E2), HA.
Qed.

Lemma cell_57_rerun_witness :
  let st := mkstate [Arr2 affine_ras]
              (fun x => if String.eqb x "A" then Some 0%nat else None) in
  let st1 := assign "xyz1" 2
               (mkstate [Arr2 affine_ras; Arr1 [69; 119; 109; 1];
                         Arr1 (map (fun r => dot r [69; 119; 109; 1])
                                   (rows affine_ras))]
                        (names st)) in
  cell_57 69 119 109 st = Ok st1 /\
  (fmap (fun st' => lookup st' "xyz1") (cell_57 119 119 109 st1) =
   fmap (fun st' => lookup st' "xyz1") (cell_57 119 119 109 st) /\
   (forall A, lookup st "A" = Ok (Arr2 A) ->
      exists st2 v,
        cell_57 119 119 109 st1 = Ok st2 /\
        xyz1 A [119; 119; 109] = Ok v /\
        lookup st2 "xyz1" = Ok (Arr1 v) /\
        lookup st2 "A" = Ok (Arr2 A))).
Proof.
  intros st st1.
  assert (E : cell_57 69 119 109 st = Ok st1) by reflexivity.
  split; [exact E|].
  exact (cell_57_rerun st st1 69 119 109 119 119 109 E).
Defined.
